(** * Verification of the environment set-up and dev-server scripts

    The development embeds [scripts/setup-env.js] (port probing, the
    port scan [findAvailablePort], the [.env] reader and writer
    [setupEnvironment]) and [apps/web/scripts/dev.js] (the supervisor of the
    Next.js dev server) as functions over an explicit world state, and
    proves the properties the specification states about them.  The
    orchestration components that the specification describes but whose
    code is not part of the sources at hand (the Project State Machine and
    the Session Relay) are modelled from the specification's wording. *)

From Stdlib Require Import ZArith Lia Ascii String.
From stdpp Require Import base decidable option list gmap sets strings pretty.

Local Open Scope string_scope.
Local Open Scope list_scope.
Local Open Scope Z_scope.

(** ** JavaScript values used by the scripts

    Numbers are integers or [NaN]; strings are sequences of code units
    below 256, which covers the ASCII text of a [.env] file.  The integers
    are exact, whereas the numbers of the scripts are doubles: the two
    agree on the safe integers, and what is stated about the digits of a
    number is stated for [safe_integer]s. *)

Module Js.

(** A JavaScript number as the scripts use it: an integer or [NaN] (what
    [parseInt] returns when it finds no digit).  Integers are exact; the
    rounding of doubles from 2^53 on is outside this model. *)
Inductive jsnum : Type :=
  | JNaN
  | JInt (z : Z).

(** [Number.isSafeInteger(z)]: the integers strictly between -2^53 and
    2^53.  On these a double is the integer itself, [`${n}`] prints its
    decimal digits and [parseInt] reads them exactly.  Outside, [parseInt]
    rounds to a double, and from 10^21 on [`${n}`] prints an exponent;
    [to_string] and [parseInt] below do not follow the scripts there. *)
Definition safe_integer (z : Z) : Prop :=
  -9007199254740992 < z < 9007199254740992.

(** A number of the scripts on which the model is exact: [NaN] or a safe
    integer. *)
Definition safe_number (n : jsnum) : Prop :=
  match n with
  | JNaN => True
  | JInt z => safe_integer z
  end.

#[global] Instance jsnum_eq_dec : EqDecision jsnum.
Proof. solve_decision. Defined.

(** [port++] *)
Definition incr (n : jsnum) : jsnum :=
  match n with
  | JNaN => JNaN
  | JInt z => JInt (z + 1)
  end.

(** [a !== b] on numbers: [NaN] differs from every number, itself included. *)
Definition strict_ne (a b : jsnum) : bool :=
  match a, b with
  | JInt x, JInt y => negb (x =? y)
  | _, _ => true
  end.

(** Template-literal conversion [`${n}`], for [NaN] and the safe
    integers: the decimal digits, with a minus sign below zero. *)
Definition to_string (n : jsnum) : string :=
  match n with
  | JNaN => "NaN"
  | JInt z => pretty z
  end.

(** White space as [String.prototype.trim] and [parseInt] see it, for the
    code units below 256: TAB, LF, VT, FF, CR, SPACE and NBSP. *)
Definition is_white (a : ascii) : bool :=
  let n := nat_of_ascii a in
  ((9 <=? n) && (n <=? 13))%nat || (n =? 32)%nat || (n =? 160)%nat.

Fixpoint trim_start (s : string) : string :=
  match s with
  | EmptyString => EmptyString
  | String a r => if is_white a then trim_start r else s
  end.

Fixpoint trim_end (s : string) : string :=
  match s with
  | EmptyString => EmptyString
  | String a r =>
      match trim_end r with
      | EmptyString => if is_white a then EmptyString else String a EmptyString
      | r' => String a r'
      end
  end.

(** [s.trim()] *)
Definition trim (s : string) : string := trim_end (trim_start s).

(** [s.split(sep)] for a one-character separator: never empty, the empty
    string splits into one empty piece. *)
Fixpoint split (sep : ascii) (s : string) : list string :=
  match s with
  | EmptyString => [EmptyString]
  | String a r =>
      if Ascii.eqb a sep then EmptyString :: split sep r
      else match split sep r with
           | [] => [String a EmptyString]
           | h :: t => String a h :: t
           end
  end.

(** [s.startsWith(c)] for a one-character prefix. *)
Definition starts_with (c : ascii) (s : string) : bool :=
  match s with
  | String a _ => Ascii.eqb a c
  | EmptyString => false
  end.

(** Truthiness of a string: every string but the empty one. *)
Definition truthy (s : string) : bool :=
  match s with
  | EmptyString => false
  | String _ _ => true
  end.

(** Value of a digit in the given radix (10 or 16), if it is one. *)
Definition digit_val (radix : Z) (a : ascii) : option Z :=
  let n := Z.of_nat (nat_of_ascii a) in
  if (48 <=? n) && (n <=? 57) then Some (n - 48)
  else if (radix =? 16) && (97 <=? n) && (n <=? 102) then Some (n - 87)
  else if (radix =? 16) && (65 <=? n) && (n <=? 70) then Some (n - 55)
  else None.

(** Longest prefix of digits, read left to right; [None] when the first
    character is not a digit. *)
Fixpoint digits_from (radix : Z) (acc : option Z) (s : string) : option Z :=
  match s with
  | EmptyString => acc
  | String a r =>
      match digit_val radix a with
      | None => acc
      | Some d => digits_from radix (Some (radix * default 0 acc + d)) r
      end
  end.

Definition strip_sign (s : string) : Z * string :=
  match s with
  | String "-" r => (-1, r)
  | String "+" r => (1, r)
  | _ => (1, s)
  end.

Definition of_digits (sign : Z) (radix : Z) (s : string) : jsnum :=
  match digits_from radix None s with
  | None => JNaN
  | Some v => JInt (sign * v)
  end.

(** [parseInt(s, 10)]: leading white space, an optional sign, decimal
    digits; anything after the digits is ignored.  The result is the
    script's as long as the digits denote a safe integer. *)
Definition parseInt10 (s : string) : jsnum :=
  let '(sign, r) := strip_sign (trim_start s) in
  of_digits sign 10 r.

(** [parseInt(s)] without a radix: as above, but a [0x] or [0X] prefix
    selects radix 16. *)
Definition parseInt (s : string) : jsnum :=
  let '(sign, r) := strip_sign (trim_start s) in
  match r with
  | String "0" (String "x" r') => of_digits sign 16 r'
  | String "0" (String "X" r') => of_digits sign 16 r'
  | _ => of_digits sign 10 r
  end.

(** [parseInt(v)] where [v] may be [undefined]: [undefined] is converted
    to the string "undefined", which has no digit. *)
Definition parseInt_opt (v : option string) : jsnum :=
  match v with
  | None => JNaN
  | Some s => parseInt s
  end.

End Js.
Export Js.

(** ** [scripts/setup-env.js]

    The script runs against a world: the ports on which a listener is
    found, the three paths it touches, and the file-system calls that
    throw.  A call that throws takes the run to the [catch] block, which
    ends the process with code 1.  Console output is left out.  The
    unbounded [while] loop of [findAvailablePort] is given a number of
    steps; a result of [None] stands for a scan that has not returned
    yet. *)

Module SetupEnv.

(** What a run does to its surroundings, in the order it happens. *)
Inductive Effect : Type :=
  | Probe (port : jsnum)            (* one call of [isPortAvailable] *)
  | Mkdir                           (* [fs.mkdirSync(dataDir)] *)
  | WriteEnv (content : string)     (* [fs.writeFileSync(envFile, ..)] *)
  | WriteWebEnv (content : string). (* [fs.writeFileSync(webEnvFile, ..)] *)

#[global] Instance Effect_eq_dec : EqDecision Effect.
Proof. solve_decision. Defined.

(** The file-system calls of the script that can throw ([existsSync]
    cannot). *)
Inductive FsCall : Type :=
  | MkdirData        (* [fs.mkdirSync(dataDir, ..)], line 71 *)
  | ReadEnvFile      (* [fs.readFileSync(envFile, 'utf8')], line 81 *)
  | WriteEnvFile     (* [fs.writeFileSync(envFile, ..)], line 129 *)
  | WriteWebEnvFile. (* [fs.writeFileSync(webEnvFile, ..)], line 141 *)

#[global] Instance FsCall_eq_dec : EqDecision FsCall.
Proof. solve_decision. Defined.

(** The part of the machine the script reads and writes: [rootDir] (line
    7, itself a result of [path.join], hence an absolute, normalized path
    of the platform), the ports on which the platform's probe ([lsof],
    [netstat]) reports a listener, the three paths under [rootDir], the
    log of effects so far, and the file-system calls that throw on this
    machine (missing permissions, read-only volume, ...). *)
Record World : Type := mkWorldF {
  root_dir : string;
  listening : gset Z;
  data_dir : bool;
  env_file : option string;
  web_env_file : option string;
  effects : list Effect;
  faults : list FsCall
}.

(** A world on which no file-system call throws. *)
Definition mkWorld (root : string) (busy : gset Z) (dir : bool)
    (env web_env : option string) (es : list Effect) : World :=
  mkWorldF root busy dir env web_env es [].

Definition log (e : Effect) (w : World) : World :=
  mkWorldF (root_dir w) (listening w) (data_dir w) (env_file w)
           (web_env_file w) (effects w ++ [e]) (faults w).

(** Computations of the script: they thread the world; [None] is a port
    scan that has not returned within the steps granted. *)
Definition M (A : Type) : Type := World → option (A * World).

Definition ret {A} (a : A) : M A := λ w, Some (a, w).

Definition bind {A B} (m : M A) (k : A → M B) : M B :=
  λ w, match m w with
       | None => None
       | Some (a, w') => k a w'
       end.

Notation "'let*' x ':=' m 'in' k" := (bind m (λ x, k))
  (at level 10, x name, m at level 100, k at level 200).
Notation "'exec' m 'in' k" := (bind m (λ _, k))
  (at level 10, m at level 100, k at level 200).

Definition DEFAULT_API_PORT : jsnum := JInt 8080.
Definition DEFAULT_WEB_PORT : jsnum := JInt 3000.

(** The answer of the probe, on the [lsof] and [netstat] branches: a port
    is free when the command reports no listener on it; for [NaN] neither
    [lsof -i :NaN] nor [netstat | findstr :NaN] reports one. *)
Definition port_free (w : World) (port : jsnum) : bool :=
  match port with
  | JNaN => true
  | JInt z => bool_decide (z ∉ listening w)
  end.

Definition isPortAvailable (port : jsnum) : M bool :=
  λ w, Some (port_free w port, log (Probe port) w).

(** [while (!(await isPortAvailable(port))) port++; return port] *)
Fixpoint findAvailablePort (fuel : nat) (startPort : jsnum) : M jsnum :=
  match fuel with
  | O => λ _, None
  | S fuel' =>
      let* free := isPortAvailable startPort in
      if free then ret startPort
      else findAvailablePort fuel' (incr startPort)
  end.

Definition LF : ascii := ascii_of_nat 10.
Definition nl : string := String LF EmptyString.

(** [obj[key] = value] on a plain object with string values: the key
    [__proto__] goes to the prototype setter, which ignores a string. *)
Definition js_set (key value : string) (obj : gmap string string)
  : gmap string string :=
  if decide (key = "__proto__") then obj else <[key := value]> obj.

(** The guards of the [forEach] body over the lines of [.env]: the key
    and the value a line assigns, if it passes them.  The line is neither
    empty nor a comment, and its first two [=]-separated pieces are both
    non-empty; they are stored trimmed. *)
Definition line_entry (line : string) : option (string * string) :=
  if truthy line && negb (starts_with "#" line) then
    match split "=" line with
    | key :: value :: _ =>
        if truthy key && truthy value then Some (trim key, trim value)
        else None
    | _ => None
    end
  else None.

(** The body of the [forEach]: [existingEnv[key.trim()] = value.trim()]
    under the guards above. *)
Definition parse_line (existingEnv : gmap string string) (line : string)
  : gmap string string :=
  match line_entry line with
  | Some (key, value) => js_set key value existingEnv
  | None => existingEnv
  end.

Definition parse_env (envContent : string) : gmap string string :=
  fold_left parse_line (split LF envContent) ∅.

(** [if (existingEnv.KEY) port = parseInt(existingEnv.KEY, 10)] *)
Definition existing_or (dflt : jsnum) (v : option string) : jsnum :=
  match v with
  | Some s => if truthy s then parseInt10 s else dflt
  | None => dflt
  end.

Record Ports : Type := mkPorts { apiPort : jsnum; webPort : jsnum }.

(** Lines 76-100: the parsed [.env] and the two candidate ports. *)
Definition existingEnv_of (env : option string) : gmap string string :=
  match env with
  | None => ∅
  | Some envContent => parse_env envContent
  end.

Definition candidates (env : option string) : Ports :=
  let existingEnv := existingEnv_of env in
  mkPorts (existing_or DEFAULT_API_PORT (existingEnv !! "API_PORT"))
          (existing_or DEFAULT_WEB_PORT (existingEnv !! "WEB_PORT")).

(** Lines 103-117, once per port: keep the candidate when it is free,
    scan upwards from it otherwise. *)
Definition settle (fuel : nat) (port : jsnum) : M jsnum :=
  let* free := isPortAvailable port in
  if free then ret port else findAvailablePort fuel port.

(** The outcome of a statement of the [try] block: its value, or an
    exception thrown by a file-system call. *)
Inductive Step (A : Type) : Type :=
  | Value (a : A)
  | Thrown.

Arguments Value {A} a.
Arguments Thrown {A}.

(** Computations inside the [try] block. *)
Definition T (A : Type) : Type := M (Step A).

Definition tbind {A B} (m : T A) (k : A → T B) : T B :=
  let* r := m in
  match r with
  | Value a => k a
  | Thrown => ret Thrown
  end.

Notation "'try*' x ':=' m 'in' k" := (tbind m (λ x, k))
  (at level 10, x name, m at level 100, k at level 200).
Notation "'tryexec' m 'in' k" := (tbind m (λ _, k))
  (at level 10, m at level 100, k at level 200).

Definition lift {A} (m : M A) : T A := let* a := m in ret (Value a).

(** A file-system call: when the world says so it throws, having changed
    nothing (as a call refused for missing permissions does), and it does
    its work otherwise. *)
Definition fs_call (c : FsCall) (m : M unit) : T unit :=
  λ w, if bool_decide (c ∈ faults w) then Some (Thrown, w) else lift m w.

Definition mkdir_data : M unit :=
  λ w, Some (tt, log Mkdir
                   (mkWorldF (root_dir w) (listening w) true (env_file w)
                             (web_env_file w) (effects w) (faults w))).

(** Lines 68-73: [if (!fs.existsSync(dataDir)) fs.mkdirSync(dataDir, ..)] *)
Definition ensure_data_dir : T unit :=
  λ w, if data_dir w then Some (Value tt, w) else fs_call MkdirData mkdir_data w.

(** Lines 80-81: [fs.existsSync(envFile)], then [fs.readFileSync]. *)
Definition read_env : T (option string) :=
  λ w, match env_file w with
       | None => Some (Value None, w)
       | Some envContent =>
           if bool_decide (ReadEnvFile ∈ faults w) then Some (Thrown, w)
           else Some (Value (Some envContent), w)
       end.

(** [s.endsWith(c)] for a one-character suffix. *)
Fixpoint ends_with (c : ascii) (s : string) : bool :=
  match s with
  | EmptyString => false
  | String a EmptyString => Ascii.eqb a c
  | String _ r => ends_with c r
  end.

(** [path.join(rootDir, 'data', 'cc.db')] for a [rootDir] that is an
    absolute, normalized path: on POSIX ([rootDir] starts with [/]) the
    separator is [/], and [rootDir] ends with it only when it is the root
    [/]; on Windows the separator is the backslash, and [rootDir] ends
    with it only when it is the root of a drive. *)
Definition data_db_path (root : string) : string :=
  if starts_with "/" root
  then (if ends_with "/" root then root +:+ "data/cc.db"
        else root +:+ "/data/cc.db")
  else (if ends_with "\" root then root +:+ "data\cc.db"
        else root +:+ "\data\cc.db").

(** The template of lines 123-127. *)
Definition env_content (root : string) (p : Ports) : string :=
  "# Auto-generated environment configuration" +:+ nl +:+
  "API_PORT=" +:+ to_string (apiPort p) +:+ nl +:+
  "WEB_PORT=" +:+ to_string (webPort p) +:+ nl +:+
  "DATABASE_URL=sqlite:///" +:+ data_db_path root +:+ nl.

(** The template of lines 136-139. *)
Definition web_env_content (p : Ports) : string :=
  "# Auto-generated environment configuration" +:+ nl +:+
  "NEXT_PUBLIC_API_BASE=http://localhost:" +:+ to_string (apiPort p) +:+ nl +:+
  "NEXT_PUBLIC_WS_BASE=ws://localhost:" +:+ to_string (apiPort p) +:+ nl.

Definition write_env (content : string) : M unit :=
  λ w, Some (tt, log (WriteEnv content)
                   (mkWorldF (root_dir w) (listening w) (data_dir w)
                             (Some content) (web_env_file w) (effects w)
                             (faults w))).

Definition write_web_env (content : string) : M unit :=
  λ w, Some (tt, log (WriteWebEnv content)
                   (mkWorldF (root_dir w) (listening w) (data_dir w)
                             (env_file w) (Some content) (effects w)
                             (faults w))).

Definition get_world : M World := λ w, Some (w, w).

(** The condition of line 120: [.env] is missing or a recorded port,
    parsed without a radix, differs from the selected one. *)
Definition env_outdated (env : option string) (p : Ports) : bool :=
  let existingEnv := existingEnv_of env in
  negb (bool_decide (is_Some env))
  || strict_ne (parseInt_opt (existingEnv !! "API_PORT")) (apiPort p)
  || strict_ne (parseInt_opt (existingEnv !! "WEB_PORT")) (webPort p).

(** The [try] block of [setupEnvironment], lines 67-153: data directory,
    candidates from [.env], the two port searches, the conditional write
    of [.env], the unconditional write of [.env.local], and the ports
    returned. *)
Definition try_block (fuel : nat) : T Ports :=
  tryexec ensure_data_dir in
  try* env := read_env in
  let start := candidates env in
  try* api := lift (settle fuel (apiPort start)) in
  try* web := lift (settle fuel (webPort start)) in
  let p := mkPorts api web in
  try* w0 := lift get_world in
  tryexec (if env_outdated env p
           then fs_call WriteEnvFile (write_env (env_content (root_dir w0) p))
           else lift (ret tt)) in
  tryexec fs_call WriteWebEnvFile (write_web_env (web_env_content p)) in
  lift (ret p).

(** How a call of [setupEnvironment] ends: it returns the two ports, or
    the process exits. *)
Inductive Outcome : Type :=
  | Returned (p : Ports)
  | ProcessExit (code : Z).

(** [setupEnvironment()], lines 64-163: the [try] block, and the [catch]
    block that ends the process with [process.exit(1)]. *)
Definition setupEnvironment (fuel : nat) (w : World) : option (Outcome * World) :=
  match try_block fuel w with
  | None => None
  | Some (Value p, w') => Some (Returned p, w')
  | Some (Thrown, w') => Some (ProcessExit 1, w')
  end.

(** *** Notions used in the statements

    None of what follows is part of the script: these definitions name
    worlds, effect logs and scenarios that the theorems speak about. *)

(** The world after a run has logged the effects [es] and changed nothing
    else. *)
Definition log_all (es : list Effect) (w : World) : World :=
  mkWorldF (root_dir w) (listening w) (data_dir w) (env_file w)
           (web_env_file w) (effects w ++ es) (faults w).

(** The probes of the ports [p], [p+1], ..., [p+n-1], in that order. *)
Definition probes (p n : Z) : list Effect := (λ z, Probe (JInt z)) <$> seqZ p n.

(** Outside the script: some process starts to listen on [p]. *)
Definition listen (p : Z) (w : World) : World :=
  mkWorldF (root_dir w) ({[p]} ∪ listening w) (data_dir w) (env_file w)
           (web_env_file w) (effects w) (faults w).

(** A scenario: N allocation requests, each a call of
    [findAvailablePort], served one after the other; [bound] tells whether
    the port handed out is bound (a listener appears on it) before the next
    request is served.  Requests served at the same time are the case
    [bound = false]: a scan only reads the set of busy ports, so every
    interleaving of their probes sees the same set. *)
Fixpoint allocate_all (bound : bool) (fuel : nat) (starts : list Z)
  : M (list jsnum) :=
  match starts with
  | [] => ret []
  | s :: rest =>
      let* p := findAvailablePort fuel (JInt s) in
      exec (λ w, Some (tt, match p with
                           | JInt z => if bound then listen z w else w
                           | JNaN => w
                           end)) in
      let* ps := allocate_all bound fuel rest in
      ret (p :: ps)
  end.

(** The effect is a probe of a port. *)
Definition is_probe (e : Effect) : Prop :=
  match e with
  | Probe _ => True
  | _ => False
  end.

(** The world in which the two port searches of a run start: the data
    directory has been created if it was missing. *)
Definition after_data_dir (w : World) : World :=
  if data_dir w then w
  else log Mkdir (mkWorldF (root_dir w) (listening w) true (env_file w)
                           (web_env_file w) (effects w) (faults w)).

(** The world after the conditional write of [.env], from the world [w3]
    the second port search has left. *)
Definition after_env_write (env0 : option string) (p : Ports) (w3 : World) : World :=
  if env_outdated env0 p
  then log (WriteEnv (env_content (root_dir w3) p))
           (mkWorldF (root_dir w3) (listening w3) (data_dir w3)
                     (Some (env_content (root_dir w3) p))
                     (web_env_file w3) (effects w3) (faults w3))
  else w3.

(** The world a run that returns ends in, from the world [w3] its second
    port search has left: [.env] written or kept, [.env.local] written. *)
Definition after_writes (env0 : option string) (p : Ports) (w3 : World) : World :=
  let w4 := after_env_write env0 p w3 in
  log (WriteWebEnv (web_env_content p))
      (mkWorldF (root_dir w4) (listening w4) (data_dir w4) (env_file w4)
                (Some (web_env_content p)) (effects w4) (faults w4)).

(** A machine with the given busy ports and [.env] content, an existing
    data directory, nothing logged yet, and no file-system call that
    throws. *)
Definition machine (busy : gset Z) (env : option string) : World :=
  mkWorld "/app" busy true env None [].

End SetupEnv.
Export SetupEnv.


(** ** [apps/web/scripts/dev.js] *)

Module DevScript.

(** The two environment variables the script reads. *)
Record Env : Type := mkEnv {
  BROWSER : option string;
  WEB_PORT : option string
}.

(** [process.env.BROWSER !== 'false' && process.env.BROWSER !== 'none'] *)
Definition shouldOpenBrowser (env : Env) : bool :=
  negb (bool_decide (BROWSER env = Some "false"))
  && negb (bool_decide (BROWSER env = Some "none")).

(** [(process.env.WEB_PORT || 3000).toString()] *)
Definition webPort (env : Env) : string :=
  match WEB_PORT env with
  | Some s => if truthy s then s else "3000"
  | None => "3000"
  end.

(** The script's own process: alive, or gone with an exit code. *)
Inductive Status : Type :=
  | Running
  | Exited (code : Z).

(** What is left to do of [openBrowserOnce], lines 15-32. *)
Inductive Timer : Type :=
  | NoTimer      (* no timer was set, or its callback is over *)
  | Pending      (* [setTimeout(.., 4000)] has not fired yet *)
  | Importing    (* the callback awaits [import('open')] *)
  | Opening.     (* the callback awaits [open(url)] *)

(** What can happen to the running script. *)
Inductive Event : Type :=
  | ChildExit (code : option Z)  (* ['exit'] of the dev server; [null] on a signal *)
  | ChildError                   (* ['error'] of the dev server *)
  | Sigint                       (* [SIGINT] sent to the script *)
  | TimerFired                   (* the 4 s timer of [openBrowserOnce] fires *)
  | Imported (ok : bool)         (* [import('open')] is fulfilled, or rejected *)
  | OpenSettled.                 (* [open(url)] is fulfilled or rejected *)

Record Sup : Type := mkSup {
  status : Status;
  spawns : list (list string);   (* every [spawn] of the dev server, with its arguments *)
  signals : list string;         (* every signal [next.kill(..)] has sent *)
  browserOpened : bool;
  timer : Timer;
  opened : list string;          (* every URL handed to [open] *)
  child_alive : bool             (* the dev server has not exited *)
}.

(** The state once the top level of the script has run: the dev server
    spawned once, [openBrowserOnce] called once, the handlers installed. *)
Definition start (env : Env) : Sup :=
  mkSup Running
        [["npx"; "next"; "dev"; "--turbo"; "--port"; webPort env]]
        []
        (shouldOpenBrowser env)
        (if shouldOpenBrowser env then Pending else NoTimer)
        []
        true.

(** [process.exit(code)]: the process is gone, and its timer with it. *)
Definition exit_with (code : Z) (s : Sup) : Sup :=
  mkSup (Exited code) (spawns s) (signals s) (browserOpened s) NoTimer
        (opened s) (child_alive s).

(** What keeps the event loop of the script alive: the handle of the dev
    server until it exits, the timer until it fires, and its callback
    until it is over.  The listener for [SIGINT] does not. *)
Definition keeps_alive (s : Sup) : bool :=
  child_alive s ||
  match timer s with
  | NoTimer => false
  | _ => true
  end.

(** Node ends a process with code 0 as soon as nothing keeps its event
    loop alive. *)
Definition loop_end (s : Sup) : Sup :=
  if keeps_alive s then s else exit_with 0 s.

Definition child_gone (s : Sup) : Sup :=
  mkSup (status s) (spawns s) (signals s) (browserOpened s) (timer s)
        (opened s) false.

Definition set_timer (t : Timer) (s : Sup) : Sup :=
  mkSup (status s) (spawns s) (signals s) (browserOpened s) t
        (opened s) (child_alive s).

(** [next.kill(sig)]: the signal is sent if the dev server has not exited;
    after its exit nothing is sent. *)
Definition kill (sig : string) (s : Sup) : Sup :=
  if child_alive s
  then mkSup (status s) (spawns s) (signals s ++ [sig]) (browserOpened s)
             (timer s) (opened s) (child_alive s)
  else s.

(** [open(url)] with the URL of line 22. *)
Definition open_browser (env : Env) (s : Sup) : Sup :=
  mkSup (status s) (spawns s) (signals s) (browserOpened s) (timer s)
        (opened s ++ ["http://localhost:" +:+ webPort env]) (child_alive s).

(** The handlers of lines 44-60 and the callback of the timer, lines
    20-31.  None of them spawns anything.  A non-zero exit code of the dev
    server ends the script with that code; after an exit with code 0 or by
    a signal the handler does nothing, and the script ends with code 0
    once the callback of the timer, if any, is over. *)
Definition handle (env : Env) (s : Sup) (e : Event) : Sup :=
  match status s with
  | Exited _ => s
  | Running =>
      match e with
      | ChildExit (Some code) =>
          if code =? 0 then loop_end (child_gone s)
          else exit_with code (child_gone s)
      | ChildExit None => loop_end (child_gone s)
      | ChildError => exit_with 1 s
      | Sigint => exit_with 0 (kill "SIGINT" s)
      | TimerFired =>
          match timer s with
          | Pending => set_timer Importing s
          | _ => s
          end
      | Imported ok =>
          match timer s with
          | Importing =>
              if ok then set_timer Opening (open_browser env s)
              else loop_end (set_timer NoTimer s)
          | _ => s
          end
      | OpenSettled =>
          match timer s with
          | Opening => loop_end (set_timer NoTimer s)
          | _ => s
          end
      end
  end.

Definition run (env : Env) (evs : list Event) (s : Sup) : Sup :=
  fold_left (handle env) evs s.


End DevScript.

(** ** The Project State Machine *)

Module StateMachine.

(** Modelled from the spec: the lifecycle states of a project (section
    4.3).  The code of the Project State Machine is not among the sources
    at hand. *)
Inductive Status : Type :=
  | Initializing   (* project created, no session yet *)
  | Active         (* idle, ready to accept a prompt *)
  | Generating     (* an agent session is running *)
  | Error          (* last generation failed *)
  | Terminated.    (* project explicitly closed *)

Inductive Reason : Type := Succeeded | Failed | Cancelled.

(** Modelled from the spec: the Session record of section 3, reduced to
    the owning project and the termination reason; a session is terminal
    once it has a reason. *)
Record Session : Type := mkSession {
  owner : nat;
  termination : option Reason
}.

(** Modelled from the spec: the Project record of section 3, reduced to
    the lifecycle status and the active session identifier. *)
Record Project : Type := mkProject {
  status : Status;
  active_session : option nat
}.

Record System : Type := mkSystem {
  projects : gmap nat Project;
  sessions : gmap nat Session;
  next_session : nat
}.

Definition initial : System := mkSystem ∅ ∅ 0.

(** Modelled from the spec: the operations that drive the transitions
    [Initializing → Active → Generating ⇄ Active → Error →
    (Active|Terminated)] of section 4.3. *)
Inductive Command : Type :=
  | Create                  (* a project comes into being, [Initializing] *)
  | Ready                   (* [Initializing → Active] *)
  | Prompt                  (* [Active → Generating], a session is spawned *)
  | SessionEnded (ok : bool) (* [Generating → Active] or [Generating → Error] *)
  | Cancel                  (* [Generating → Active] *)
  | Retry                   (* [Error → Active] *)
  | Close.                  (* [Error → Terminated] *)

Inductive Outcome : Type := Done | InvalidTransition.

(** Modelled from the spec: which command each state accepts. *)
Definition accepts (st : Status) (c : Command) : bool :=
  match st, c with
  | Initializing, Ready => true
  | Active, Prompt => true
  | Generating, SessionEnded _ => true
  | Generating, Cancel => true
  | Error, Retry => true
  | Error, Close => true
  | _, _ => false
  end.

Definition set_project (pid : nat) (p : Project) (sys : System) : System :=
  mkSystem (<[pid := p]> (projects sys)) (sessions sys) (next_session sys).

(** The session [sid] becomes terminal, with the given reason. *)
Definition end_session (sid : nat) (r : Reason) (sys : System) : System :=
  mkSystem (projects sys)
           (alter (λ s, mkSession (owner s) (Some r)) sid (sessions sys))
           (next_session sys).

(** A new, non-terminal session for project [pid]. *)
Definition spawn_session (pid : nat) (sys : System) : System :=
  mkSystem (projects sys)
           (<[next_session sys := mkSession pid None]> (sessions sys))
           (S (next_session sys)).

(** Modelled from the spec: one operation of the state machine on project
    [pid].  A rejected attempt returns the state it was given. *)
Definition step (pid : nat) (c : Command) (sys : System) : System * Outcome :=
  match projects sys !! pid with
  | None =>
      match c with
      | Create => (set_project pid (mkProject Initializing None) sys, Done)
      | _ => (sys, InvalidTransition)
      end
  | Some p =>
      match status p, c with
      | Initializing, Ready =>
          (set_project pid (mkProject Active (active_session p)) sys, Done)
      | Active, Prompt =>
          (set_project pid (mkProject Generating (Some (next_session sys)))
                       (spawn_session pid sys), Done)
      | Generating, SessionEnded ok =>
          match active_session p with
          | Some sid =>
              (set_project pid (mkProject (if ok then Active else Error) None)
                           (end_session sid (if ok then Succeeded else Failed) sys),
               Done)
          | None => (sys, InvalidTransition)
          end
      | Generating, Cancel =>
          match active_session p with
          | Some sid =>
              (set_project pid (mkProject Active None)
                           (end_session sid Cancelled sys), Done)
          | None => (sys, InvalidTransition)
          end
      | Error, Retry =>
          (set_project pid (mkProject Active (active_session p)) sys, Done)
      | Error, Close =>
          (set_project pid (mkProject Terminated (active_session p)) sys, Done)
      | _, _ => (sys, InvalidTransition)
      end
  end.

(** The state after a sequence of operations, accepted or rejected. *)
Definition run (cmds : list (nat * Command)) (sys : System) : System :=
  fold_left (λ st pc, fst (step pc.1 pc.2 st)) cmds sys.

(** Project [pid] has at most one non-terminal session. *)
Definition at_most_one_live (sys : System) (pid : nat) : Prop :=
  ∀ s1 s2 sess1 sess2,
    sessions sys !! s1 = Some sess1 → sessions sys !! s2 = Some sess2 →
    owner sess1 = pid → owner sess2 = pid →
    termination sess1 = None → termination sess2 = None →
    s1 = s2.

(** What holds of every reachable state: session identifiers are below
    the next one to be given out, and a non-terminal session is the active
    session of its project, which is [Generating]. *)
Definition consistent (sys : System) : Prop :=
  (∀ sid sess, sessions sys !! sid = Some sess → (sid < next_session sys)%nat) ∧
  (∀ sid sess, sessions sys !! sid = Some sess → termination sess = None →
     ∃ p, projects sys !! owner sess = Some p ∧
          status p = Generating ∧ active_session p = Some sid).

End StateMachine.

(** ** The Session Relay *)

Module Relay.

(** Modelled from the spec: a StructuredEvent (section 3), reduced to the
    project identifier, the sequence number and an opaque payload.  The
    code of the Session Relay is not among the sources at hand. *)
Record StructuredEvent : Type := mkEvent {
  project_id : nat;
  sequence : nat;
  payload : nat
}.

(** Modelled from the spec: one subscription (section 4.4): the sequence
    number it was opened from, the events delivered to it so far, in the
    order of delivery, and how many of them wait in its bounded queue. *)
Record Subscriber : Type := mkSub {
  fromSequence : nat;
  received : list StructuredEvent;
  pending : nat
}.

(** Modelled from the spec: the per-project state of the relay: the next
    sequence number, the bounded ring of the most recent events, the
    current subscribers, and (for the statements only) the history of all
    events published. *)
Record Channel : Type := mkChannel {
  next_sequence : nat;
  ring : list StructuredEvent;
  subscribers : gmap nat Subscriber;
  published : list StructuredEvent
}.

(** The two bounds of section 4.4: the ring holds the most recent
    [retention] events, a subscriber queue at most [queue_bound]. *)
Record Config : Type := mkConfig {
  retention : nat;
  queue_bound : nat
}.

(** A project nothing was published for yet; sequences start at 1. *)
Definition fresh : Channel := mkChannel 1 [] ∅ [].

Definition channel (pid : nat) (r : gmap nat Channel) : Channel :=
  default fresh (r !! pid).

Definition keep_last (n : nat) (l : list StructuredEvent) : list StructuredEvent :=
  drop (length l - n) l.

(** Delivery to one subscriber never blocks: the event is queued, or the
    subscriber whose queue is full is disconnected. *)
Definition deliver (cfg : Config) (ev : StructuredEvent) (s : Subscriber)
  : option Subscriber :=
  if (pending s <? queue_bound cfg)%nat
  then Some (mkSub (fromSequence s) (received s ++ [ev]) (S (pending s)))
  else None.

(** Modelled from the spec: [publish] assigns the next sequence number of
    the project and delivers to every current subscriber. *)
Definition publish (cfg : Config) (pid data : nat) (r : gmap nat Channel)
  : gmap nat Channel :=
  let ch := channel pid r in
  let ev := mkEvent pid (next_sequence ch) data in
  <[pid := mkChannel (S (next_sequence ch))
                     (keep_last (retention cfg) (ring ch ++ [ev]))
                     (omap (deliver cfg ev) (subscribers ch))
                     (published ch ++ [ev])]> r.

(** The events after [k] can be replayed when all of them are retained. *)
Definition replayable (ch : Channel) (k : nat) : bool :=
  (next_sequence ch - length (ring ch) <=? S k)%nat
  && (S k <=? next_sequence ch)%nat.

Definition replay (ch : Channel) (k : nat) : list StructuredEvent :=
  filter (λ e, (k < sequence e)%nat) (ring ch).

Inductive Answer : Type := Subscribed | Resynchronize.

(** Modelled from the spec: [subscribe(projectId, fromSequence)] replays
    the retained events after [fromSequence] and then continues live; a
    [fromSequence] that has fallen out of the ring is answered with the
    resynchronization signal. *)
Definition subscribe (pid cid k : nat) (r : gmap nat Channel)
  : gmap nat Channel * Answer :=
  let ch := channel pid r in
  if replayable ch k
  then (<[pid := mkChannel (next_sequence ch) (ring ch)
                           (<[cid := mkSub k (replay ch k) (length (replay ch k))]>
                              (subscribers ch))
                           (published ch)]> r, Subscribed)
  else (r, Resynchronize).

Definition unsubscribe (pid cid : nat) (r : gmap nat Channel) : gmap nat Channel :=
  let ch := channel pid r in
  <[pid := mkChannel (next_sequence ch) (ring ch)
                     (delete cid (subscribers ch)) (published ch)]> r.

(** The client has taken [n] events out of its queue. *)
Definition acknowledge (pid cid n : nat) (r : gmap nat Channel) : gmap nat Channel :=
  let ch := channel pid r in
  <[pid := mkChannel (next_sequence ch) (ring ch)
                     (alter (λ s, mkSub (fromSequence s) (received s) (pending s - n))
                            cid (subscribers ch))
                     (published ch)]> r.

Inductive Op : Type :=
  | Publish (pid data : nat)
  | Subscribe (pid cid k : nat)
  | Unsubscribe (pid cid : nat)
  | Acknowledge (pid cid n : nat).

Definition apply (cfg : Config) (r : gmap nat Channel) (op : Op) : gmap nat Channel :=
  match op with
  | Publish pid data => publish cfg pid data r
  | Subscribe pid cid k => fst (subscribe pid cid k r)
  | Unsubscribe pid cid => unsubscribe pid cid r
  | Acknowledge pid cid n => acknowledge pid cid n r
  end.

Definition run (cfg : Config) (ops : list Op) : gmap nat Channel :=
  fold_left (apply cfg) ops ∅.

(** The sequence numbers of [l] are [a], [a+1], ..., without a gap. *)
Definition consecutive_from (a : nat) (l : list StructuredEvent) : Prop :=
  sequence <$> l = seq a (length l).

(** What holds of every channel the relay can reach. *)
Definition channel_ok (ch : Channel) : Prop :=
  consecutive_from 1 (published ch) ∧
  next_sequence ch = S (length (published ch)) ∧
  consecutive_from (next_sequence ch - length (ring ch)) (ring ch) ∧
  (length (ring ch) < next_sequence ch)%nat ∧
  ∀ cid s, subscribers ch !! cid = Some s →
    consecutive_from (S (fromSequence s)) (received s) ∧
    (S (fromSequence s) + length (received s))%nat = next_sequence ch.

Definition relay_ok (r : gmap nat Channel) : Prop :=
  ∀ pid ch, r !! pid = Some ch → channel_ok ch.

End Relay.

(** ** Text notions used in further statements

    None of what follows is part of the scripts. *)

Module Text.

(** Every character of [s] passes the test [P]. *)
Fixpoint string_forall (P : ascii → bool) (s : string) : bool :=
  match s with
  | EmptyString => true
  | String a r => P a && string_forall P r
  end.

(** [s] has no occurrence of the character [c]. *)
Definition free_of (c : ascii) (s : string) : bool :=
  string_forall (λ a, negb (Ascii.eqb a c)) s.

(** A decimal digit. *)
Definition is_digit (a : ascii) : bool :=
  let n := nat_of_ascii a in ((48 <=? n) && (n <=? 57))%nat.

(** A character of the decimal text of an integer: a digit or the sign. *)
Definition is_number_char (a : ascii) : bool :=
  is_digit a || Ascii.eqb a "-".

(** [pieces.join(sep)] for a one-character separator. *)
Fixpoint join (sep : ascii) (pieces : list string) : string :=
  match pieces with
  | [] => EmptyString
  | [p] => p
  | p :: rest => p +:+ String sep (join sep rest)
  end.

End Text.
Export Text.

(** ** Notions used in further statements about a run

    None of what follows is part of the scripts. *)

Module RunNotions.

(** [sel] is what a port search started at [cand] selects when the ports
    of [busy] are taken: [NaN] for [NaN], and otherwise the least port at
    or above [cand] that is not busy. *)
Definition least_free_from (busy : gset Z) (cand sel : jsnum) : Prop :=
  match cand with
  | JNaN => sel = JNaN
  | JInt c => ∃ a, sel = JInt a ∧ c ≤ a ∧ (a ∉ busy) ∧
                   ∀ k, c ≤ k < a → k ∈ busy
  end.

(** The probes of the port search that starts at [cand] and selects
    [sel]: the candidate alone when it is free; when it is busy, the
    candidate and then the scan from the candidate again up to [sel]. *)
Definition search_log (busy : gset Z) (cand sel : jsnum) : list Effect :=
  match cand, sel with
  | JInt c, JInt a =>
      if bool_decide (c ∈ busy)
      then Probe cand :: probes c (a - c + 1)
      else [Probe cand]
  | _, _ => [Probe cand]
  end.

End RunNotions.
Export RunNotions.

(** ** Notions used in further statements about the dev-server script

    None of what follows is part of the scripts. *)

Module DevNotions.

Import DevScript.

(** The URL the script opens. *)
Definition url (env : Env) : string := "http://localhost:" +:+ webPort env.

(** How the script stands after the events [evs]: what its status says
    about the dev server, the events and the signals sent. *)
Definition script_ok (evs : list Event) (s : Sup) : Prop :=
  match status s with
  | Running =>
      keeps_alive s = true ∧ signals s = [] ∧
      (child_alive s = false →
       ChildExit (Some 0) ∈ evs ∨ ChildExit None ∈ evs)
  | Exited c =>
      if c =? 0
      then (signals s = ["SIGINT"] ∧ Sigint ∈ evs) ∨
           (signals s = [] ∧ child_alive s = false ∧
            (ChildExit (Some 0) ∈ evs ∨ ChildExit None ∈ evs))
      else signals s = [] ∧
           (ChildExit (Some c) ∈ evs ∨ (c = 1 ∧ ChildError ∈ evs))
  end.

(** How the script stands with respect to the browser. *)
Definition browser_ok (env : Env) (s : Sup) : Prop :=
  (opened s = [] ∧ timer s ≠ Opening ∧
   (timer s ≠ NoTimer → shouldOpenBrowser env = true)) ∨
  (opened s = [url env] ∧ (timer s = Opening ∨ timer s = NoTimer) ∧
   shouldOpenBrowser env = true).

End DevNotions.

(** * Properties of [scripts/setup-env.js] *)

Section PortScan.

Lemma log_log_all e es w : log_all es (log e w) = log_all (e :: es) w.
Proof. unfold log_all, log; simpl. by rewrite <- app_assoc. Qed.

Lemma probes_cons p n : 0 < n → probes p n = Probe (JInt p) :: probes (p + 1) (n - 1).
Proof.
  intros Hn. unfold probes. rewrite seqZ_cons by lia.
  by rewrite Z.add_1_r, Z.sub_1_r.
Qed.

Lemma port_free_true w z : port_free w (JInt z) = true ↔ z ∉ listening w.
Proof. simpl. by rewrite bool_decide_eq_true. Qed.

Lemma port_free_false w z : port_free w (JInt z) = false ↔ z ∈ listening w.
Proof.
  simpl. rewrite bool_decide_eq_false. split; [|tauto].
  intros H. destruct (decide (z ∈ listening w)); tauto.
Qed.

(** The scan over [n] busy ports followed by a free one. *)
Lemma findAvailablePort_run (n : nat) :
  ∀ (w : World) (p : Z) (fuel : nat),
    (∀ k, p ≤ k < p + Z.of_nat n → k ∈ listening w) →
    p + Z.of_nat n ∉ listening w →
    (n < fuel)%nat →
    findAvailablePort fuel (JInt p) w
    = Some (JInt (p + Z.of_nat n), log_all (probes p (Z.of_nat n + 1)) w).
Proof.
  induction n as [|n IH]; intros w p fuel Hbusy Hfree Hfuel;
    (destruct fuel as [|fuel]; [lia|]); cbn [findAvailablePort];
    unfold bind, isPortAvailable.
  - replace (p + Z.of_nat 0) with p in * by lia.
    apply port_free_true in Hfree. rewrite Hfree. reflexivity.
  - assert (Hp : port_free w (JInt p) = false)
      by (apply port_free_false, Hbusy; lia).
    rewrite Hp. cbn [incr].
    rewrite (IH (log (Probe (JInt p)) w) (p + 1) fuel); try lia.
    + rewrite log_log_all, (probes_cons p (Z.of_nat (S n) + 1)) by lia.
      replace (Z.of_nat (S n) + 1 - 1) with (Z.of_nat n + 1) by lia.
      by replace (p + 1 + Z.of_nat n) with (p + Z.of_nat (S n)) by lia.
    + intros k Hk. simpl. apply Hbusy. lia.
    + simpl. replace (p + 1 + Z.of_nat n) with (p + Z.of_nat (S n)) by lia. done.
Qed.

(** More steps never change a result already obtained. *)
Lemma findAvailablePort_mono (fuel : nat) :
  ∀ fuel' port w res,
    findAvailablePort fuel port w = Some res →
    (fuel ≤ fuel')%nat →
    findAvailablePort fuel' port w = Some res.
Proof.
  induction fuel as [|fuel IH]; intros fuel' port w res Hrun Hle; [done|].
  destruct fuel' as [|fuel']; [lia|].
  cbn [findAvailablePort] in *. unfold bind, isPortAvailable in *.
  destruct (port_free w port); [done|].
  apply IH; [done|lia].
Qed.

(** Below any free port [q ≥ p] there is a least free port [r ≥ p]. *)
Lemma least_free_exists (w : World) (d : nat) :
  ∀ p, p + Z.of_nat d ∉ listening w →
    ∃ n : nat, (n ≤ d)%nat ∧ (p + Z.of_nat n ∉ listening w) ∧
               (∀ k, p ≤ k < p + Z.of_nat n → k ∈ listening w).
Proof.
  induction d as [|d IH]; intros p Hfree.
  - exists 0%nat. split; [lia|]. split; [done|]. intros k Hk; lia.
  - destruct (decide (p ∈ listening w)) as [Hin|Hout].
    + destruct (IH (p + 1)) as (n & Hn & Hf & Hb).
      { by replace (p + 1 + Z.of_nat d) with (p + Z.of_nat (S d)) by lia. }
      exists (S n). split; [lia|]. split.
      * by replace (p + Z.of_nat (S n)) with (p + 1 + Z.of_nat n) by lia.
      * intros k Hk. destruct (decide (k = p)) as [->|Hne]; [done|].
        apply Hb. lia.
    + exists 0%nat. split; [lia|]. split.
      * by replace (p + Z.of_nat 0) with p by lia.
      * intros k Hk; lia.
Qed.

Lemma foldr_max_ge (p : Z) (l : list Z) :
  p ≤ foldr Z.max p l ∧ ∀ x, x ∈ l → x ≤ foldr Z.max p l.
Proof.
  induction l as [|y l [IH1 IH2]]; simpl.
  - split; [lia|]. intros x Hx. by apply elem_of_nil in Hx.
  - split; [lia|]. intros x Hx. apply elem_of_cons in Hx as [->|Hx]; [lia|].
    specialize (IH2 x Hx). lia.
Qed.

(** The set of busy ports is finite, so some port at or above [p] is free. *)
Lemma free_port_above (w : World) (p : Z) : ∃ q, p ≤ q ∧ q ∉ listening w.
Proof.
  destruct (foldr_max_ge p (elements (listening w))) as [Hp Hmax].
  exists (foldr Z.max p (elements (listening w)) + 1). split; [lia|].
  intros Hin. apply elem_of_elements, Hmax in Hin. lia.
Qed.

(** C1.  Port allocation returns the smallest free port at or above the
    starting port: whenever some port [q ≥ p] is free, [findAvailablePort p]
    terminates (every run with enough steps returns) with the least free
    port [r ≥ p]; it has probed exactly [p], [p+1], ..., [r], in this
    order, and every port it stepped over was busy. *)
Theorem findAvailablePort_least (w : World) (p q : Z) :
  p ≤ q → q ∉ listening w →
  ∃ r : Z,
    p ≤ r ≤ q ∧ (r ∉ listening w) ∧ (∀ k, p ≤ k < r → k ∈ listening w) ∧
    (∃ fuel0 : nat, ∀ fuel, (fuel0 ≤ fuel)%nat →
       findAvailablePort fuel (JInt p) w
       = Some (JInt r, log_all (probes p (r - p + 1)) w)) ∧
    (∀ fuel res, findAvailablePort fuel (JInt p) w = Some res →
       res = (JInt r, log_all (probes p (r - p + 1)) w)).
Proof.
  intros Hpq Hq.
  destruct (least_free_exists w (Z.to_nat (q - p)) p) as (n & Hn & Hfree & Hbusy).
  { by replace (p + Z.of_nat (Z.to_nat (q - p))) with q by lia. }
  assert (Hrun : ∀ fuel, (S n ≤ fuel)%nat →
            findAvailablePort fuel (JInt p) w
            = Some (JInt (p + Z.of_nat n),
                    log_all (probes p (p + Z.of_nat n - p + 1)) w)).
  { intros fuel Hfuel.
    replace (p + Z.of_nat n - p + 1) with (Z.of_nat n + 1) by lia.
    apply findAvailablePort_run; [done|done|lia]. }
  exists (p + Z.of_nat n). split; [lia|]. split; [done|]. split; [done|]. split.
  - by exists (S n).
  - intros fuel res Hres.
    apply (findAvailablePort_mono fuel (max fuel (S n))) in Hres; [|lia].
    rewrite Hrun in Hres by lia. congruence.
Qed.

(** What a returned scan says about the world it ran in. *)
Lemma findAvailablePort_sound (fuel : nat) :
  ∀ (p : Z) (w : World) (res : jsnum) (w' : World),
    findAvailablePort fuel (JInt p) w = Some (res, w') →
    ∃ r : Z, res = JInt r ∧ p ≤ r ∧ (r ∉ listening w) ∧
             (∀ k, p ≤ k < r → k ∈ listening w) ∧
             w' = log_all (probes p (r - p + 1)) w.
Proof.
  induction fuel as [|fuel IH]; intros p w res w' Hrun; [done|].
  cbn [findAvailablePort] in Hrun. unfold bind, isPortAvailable in Hrun.
  destruct (port_free w (JInt p)) eqn:Hp.
  - injection Hrun as <- <-. exists p.
    apply port_free_true in Hp.
    split; [done|]. split; [lia|]. split; [done|]. split; [intros; lia|].
    by replace (p - p + 1) with 1 by lia.
  - apply port_free_false in Hp. cbn [incr] in Hrun.
    apply IH in Hrun as (r & -> & Hle & Hfree & Hbusy & ->).
    exists r. split; [done|]. split; [lia|]. split; [done|]. split.
    + intros k Hk. destruct (decide (k = p)) as [->|Hne]; [done|].
      apply Hbusy. lia.
    + rewrite log_log_all, (probes_cons p (r - p + 1)) by lia.
      by replace (r - p + 1 - 1) with (r - (p + 1) + 1) by lia.
Qed.

(** The scan always returns: with enough steps it yields the least free
    port at or above its start. *)
Lemma findAvailablePort_total (w : World) (p : Z) :
  ∃ (r : Z) (fuel0 : nat),
    p ≤ r ∧ (r ∉ listening w) ∧ (∀ k, p ≤ k < r → k ∈ listening w) ∧
    ∀ fuel, (fuel0 ≤ fuel)%nat →
      findAvailablePort fuel (JInt p) w
      = Some (JInt r, log_all (probes p (r - p + 1)) w).
Proof.
  destruct (free_port_above w p) as (q & Hpq & Hq).
  destruct (least_free_exists w (Z.to_nat (q - p)) p) as (n & Hn & Hfree & Hbusy).
  { by replace (p + Z.of_nat (Z.to_nat (q - p))) with q by lia. }
  exists (p + Z.of_nat n), (S n).
  split; [lia|]. split; [done|]. split; [done|].
  intros fuel Hfuel.
  replace (p + Z.of_nat n - p + 1) with (Z.of_nat n + 1) by lia.
  apply findAvailablePort_run; [done|done|lia].
Qed.

End PortScan.

(** Witness of C1: ports 3000 and 3001 busy, 3005 known to be free. *)
Lemma findAvailablePort_least_witness :
  ∃ r : Z,
    3000 ≤ r ≤ 3005 ∧ (r ∉ listening (machine {[3000; 3001]} None)) ∧
    (∀ k, 3000 ≤ k < r → k ∈ listening (machine {[3000; 3001]} None)) ∧
    (∃ fuel0 : nat, ∀ fuel, (fuel0 ≤ fuel)%nat →
       findAvailablePort fuel (JInt 3000) (machine {[3000; 3001]} None)
       = Some (JInt r, log_all (probes 3000 (r - 3000 + 1))
                               (machine {[3000; 3001]} None))) ∧
    (∀ fuel res,
       findAvailablePort fuel (JInt 3000) (machine {[3000; 3001]} None) = Some res →
       res = (JInt r, log_all (probes 3000 (r - 3000 + 1))
                              (machine {[3000; 3001]} None))).
Proof.
  apply (findAvailablePort_least (machine {[3000; 3001]} None) 3000 3005).
  - lia.
  - apply (bool_decide_unpack _). vm_compute. exact I.
Defined.

Section Exhaustion.

(** C2, as the code has it.  The scan has no upper end and no failure
    outcome: when every port of a range [p..hi] is busy the scan does not
    fail, it goes on past [hi] and returns the first free port above the
    range. *)
Theorem findAvailablePort_scans_past_range (w : World) (p hi : Z) :
  p ≤ hi → (∀ q, p ≤ q ≤ hi → q ∈ listening w) →
  ∃ (r : Z) (fuel0 : nat),
    hi < r ∧ (r ∉ listening w) ∧ (∀ k, p ≤ k < r → k ∈ listening w) ∧
    ∀ fuel, (fuel0 ≤ fuel)%nat →
      findAvailablePort fuel (JInt p) w
      = Some (JInt r, log_all (probes p (r - p + 1)) w).
Proof.
  intros Hle Hrange.
  destruct (findAvailablePort_total w p) as (r & fuel0 & Hpr & Hfree & Hbusy & Hrun).
  exists r, fuel0. split; [|done].
  destruct (decide (hi < r)) as [|Hn]; [done|].
  exfalso. apply Hfree, Hrange. lia.
Qed.

Lemma range_3000_3002_busy :
  ∀ q, 3000 ≤ q ≤ 3002 → q ∈ listening (machine {[3000; 3001; 3002]} None).
Proof.
  intros q Hq. simpl.
  assert (q = 3000 ∨ q = 3001 ∨ q = 3002) as [-> | [-> | ->]] by lia; set_solver.
Qed.

Lemma findAvailablePort_scans_past_range_witness :
  ∃ (r : Z) (fuel0 : nat),
    3002 < r ∧ (r ∉ listening (machine {[3000; 3001; 3002]} None)) ∧
    (∀ k, 3000 ≤ k < r → k ∈ listening (machine {[3000; 3001; 3002]} None)) ∧
    ∀ fuel, (fuel0 ≤ fuel)%nat →
      findAvailablePort fuel (JInt 3000) (machine {[3000; 3001; 3002]} None)
      = Some (JInt r, log_all (probes 3000 (r - 3000 + 1))
                              (machine {[3000; 3001; 3002]} None)).
Proof.
  apply (findAvailablePort_scans_past_range
           (machine {[3000; 3001; 3002]} None) 3000 3002).
  - lia.
  - exact range_3000_3002_busy.
Defined.

(** The claim fails where the whole range 3000..3002 is busy: the scan
    succeeds with 3003, a port outside the range, after probing it. *)
Lemma port_exhausted_counterexample :
  (∀ q, 3000 ≤ q ≤ 3002 → q ∈ listening (machine {[3000; 3001; 3002]} None)) ∧
  findAvailablePort 4 (JInt 3000) (machine {[3000; 3001; 3002]} None)
  = Some (JInt 3003,
          log_all [Probe (JInt 3000); Probe (JInt 3001); Probe (JInt 3002);
                   Probe (JInt 3003)]
                  (machine {[3000; 3001; 3002]} None)).
Proof.
  split; [exact range_3000_3002_busy|].
  vm_compute. reflexivity.
Qed.

End Exhaustion.

Section Collisions.

Lemma listening_log_all es w : listening (log_all es w) = listening w.
Proof. reflexivity. Qed.

(** A scan leaves the set of busy ports as it found it: it binds nothing. *)
Lemma findAvailablePort_binds_nothing fuel p w res w' :
  findAvailablePort fuel (JInt p) w = Some (res, w') →
  listening w' = listening w.
Proof.
  intros Hrun. apply findAvailablePort_sound in Hrun as (r & _ & _ & _ & _ & ->).
  apply listening_log_all.
Qed.

(** A second scan from the same start, with the same busy ports, returns
    the same port. *)
Lemma findAvailablePort_again (w w1 : World) (p r : Z) :
  listening w1 = listening w →
  p ≤ r → r ∉ listening w → (∀ k, p ≤ k < r → k ∈ listening w) →
  ∀ fuel, (Z.to_nat (r - p) < fuel)%nat →
    findAvailablePort fuel (JInt p) w1
    = Some (JInt r, log_all (probes p (r - p + 1)) w1).
Proof.
  intros Hl Hpr Hfree Hbusy fuel Hfuel.
  replace r with (p + Z.of_nat (Z.to_nat (r - p))) at 1 2 by lia.
  replace (p + Z.of_nat (Z.to_nat (r - p)) - p + 1)
    with (Z.of_nat (Z.to_nat (r - p)) + 1) by lia.
  apply findAvailablePort_run; rewrite ?Hl; [|by replace (p + Z.of_nat (Z.to_nat (r - p))) with r by lia|done].
  intros k Hk. apply Hbusy. lia.
Qed.

(** C3, as the code has it.  With 3001 and 3002 busy, a request starting
    at 3000 receives the lowest free port at or above 3000: 3000 itself
    when it is free, and 3003 when 3000 is busy too and 3003 is free.  A
    second request served before that port is bound receives the very same
    port; it receives another port once the first one is bound. *)
Theorem scenario_3001_3002_busy (w : World) :
  3001 ∈ listening w → 3002 ∈ listening w →
  ∃ (r : Z) (fuel : nat) (w1 : World),
    findAvailablePort fuel (JInt 3000) w = Some (JInt r, w1) ∧
    (r ∉ listening w) ∧
    (3000 ∉ listening w → r = 3000) ∧
    (3000 ∈ listening w → 3003 ≤ r ∧ (3003 ∉ listening w → r = 3003)) ∧
    (∃ w2, findAvailablePort fuel (JInt 3000) w1 = Some (JInt r, w2)) ∧
    (∀ fuel' r' w2,
       findAvailablePort fuel' (JInt 3000) (listen r w1) = Some (r', w2) →
       r' ≠ JInt r).
Proof.
  intros H1 H2.
  destruct (findAvailablePort_total w 3000) as (r & fuel0 & Hle & Hfree & Hbusy & Hrun).
  exists r, (max fuel0 (S (Z.to_nat (r - 3000)))), (log_all (probes 3000 (r - 3000 + 1)) w).
  split; [apply Hrun; lia|]. split; [done|]. split; [|split; [|split]].
  - intros H0. destruct (decide (r = 3000)) as [|Hne]; [done|].
    exfalso. apply H0, Hbusy. lia.
  - intros H0.
    assert (3003 ≤ r).
    { destruct (decide (3003 ≤ r)) as [|Hn]; [done|]. exfalso.
      assert (r = 3000 ∨ r = 3001 ∨ r = 3002) as [-> | [-> | ->]] by lia; done. }
    split; [done|]. intros H3.
    destruct (decide (r = 3003)) as [|Hne]; [done|].
    exfalso. apply H3, Hbusy. lia.
  - eexists. apply (findAvailablePort_again w); [done|done|done|done|lia].
  - intros fuel' r' w2 Hrun'.
    apply findAvailablePort_sound in Hrun' as (z & -> & _ & Hz & _).
    intros [= ->]. apply Hz. simpl. set_solver.
Qed.

Lemma scenario_3001_3002_busy_witness :
  ∃ (r : Z) (fuel : nat) (w1 : World),
    findAvailablePort fuel (JInt 3000) (machine {[3000; 3001; 3002]} None)
    = Some (JInt r, w1) ∧
    (r ∉ listening (machine {[3000; 3001; 3002]} None)) ∧
    (3000 ∉ listening (machine {[3000; 3001; 3002]} None) → r = 3000) ∧
    (3000 ∈ listening (machine {[3000; 3001; 3002]} None) →
     3003 ≤ r ∧ (3003 ∉ listening (machine {[3000; 3001; 3002]} None) → r = 3003)) ∧
    (∃ w2, findAvailablePort fuel (JInt 3000) w1 = Some (JInt r, w2)) ∧
    (∀ fuel' r' w2,
       findAvailablePort fuel' (JInt 3000) (listen r w1) = Some (r', w2) →
       r' ≠ JInt r).
Proof.
  apply (scenario_3001_3002_busy (machine {[3000; 3001; 3002]} None));
    apply (bool_decide_unpack _); vm_compute; exact I.
Defined.

(** The claim fails on the scenario itself: two requests served before
    either port is bound receive the same port, 3000 when it is free and
    3003 when 3000 is busy as well. *)
Lemma simultaneous_requests_counterexample :
  (let* first := findAvailablePort 5 (JInt 3000) in
   let* second := findAvailablePort 5 (JInt 3000) in
   ret (first, second)) (machine {[3001; 3002]} None)
  = Some ((JInt 3000, JInt 3000),
          log_all [Probe (JInt 3000); Probe (JInt 3000)]
                  (machine {[3001; 3002]} None))
  ∧
  (let* first := findAvailablePort 5 (JInt 3000) in
   let* second := findAvailablePort 5 (JInt 3000) in
   ret (first, second)) (machine {[3000; 3001; 3002]} None)
  = Some ((JInt 3003, JInt 3003),
          log_all (probes 3000 4 ++ probes 3000 4)
                  (machine {[3000; 3001; 3002]} None)).
Proof. split; vm_compute; reflexivity. Qed.

(** [allocate_all] returns with enough steps, whatever the ports. *)
Lemma allocate_all_total (bound : bool) (starts : list Z) :
  ∀ w, ∃ (fuel0 : nat) (res : list jsnum * World),
    ∀ fuel, (fuel0 ≤ fuel)%nat → allocate_all bound fuel starts w = Some res.
Proof.
  induction starts as [|s starts IH]; intros w.
  - exists 0%nat, ([], w). reflexivity.
  - destruct (findAvailablePort_total w s) as (r & fuel1 & _ & _ & _ & Hrun).
    set (w1 := log_all (probes s (r - s + 1)) w) in *.
    destruct (IH (if bound then listen r w1 else w1)) as (fuel2 & [ps w2] & Hrest).
    exists (max fuel1 fuel2), (JInt r :: ps, w2). intros fuel Hfuel.
    cbn [allocate_all]. unfold bind at 1. rewrite Hrun by lia.
    unfold bind at 1. unfold bind at 1. rewrite Hrest by lia. reflexivity.
Qed.

(** The ports handed out when each one is bound before the next request:
    all of them were free at the start, all of them are bound at the end,
    and no two are the same. *)
Lemma allocate_all_bound_inv (fuel : nat) (starts : list Z) :
  ∀ w ps w', allocate_all true fuel starts w = Some (ps, w') →
    listening w ⊆ listening w' ∧
    length ps = length starts ∧
    NoDup ps ∧
    ∀ p, p ∈ ps → ∃ z, p = JInt z ∧ (z ∉ listening w) ∧ z ∈ listening w'.
Proof.
  induction starts as [|s starts IH]; intros w ps w' Hrun.
  - injection Hrun as <- <-. split; [done|]. split; [done|].
    split; [constructor|]. intros p Hp. by apply elem_of_nil in Hp.
  - cbn [allocate_all] in Hrun. unfold bind at 1 in Hrun.
    destruct (findAvailablePort fuel (JInt s) w) as [[p w1]|] eqn:Hfind; [|done].
    apply findAvailablePort_sound in Hfind as (r & -> & _ & Hfree & _ & ->).
    unfold bind at 1 in Hrun. unfold bind at 1 in Hrun.
    destruct (allocate_all true fuel starts _) as [[ps' w2]|] eqn:Hrest; [|done].
    injection Hrun as <- <-.
    apply IH in Hrest as (Hsub & Hlen & Hnd & Hall).
    simpl in Hsub.
    split; [intros x Hx; apply Hsub, elem_of_union; by right|].
    split; [simpl; lia|]. split.
    + constructor; [|done]. intros Hin.
      apply Hall in Hin as (z & [= <-] & Hz & _). apply Hz. simpl.
      apply elem_of_union. left. by apply elem_of_singleton.
    + intros p Hp. apply elem_of_cons in Hp as [->|Hp].
      * exists r. split; [done|]. split; [done|].
        apply Hsub, elem_of_union. left. by apply elem_of_singleton.
      * apply Hall in Hp as (z & -> & Hz & Hz'). exists z.
        split; [done|]. split; [|done]. simpl in Hz.
        intros Hin. apply Hz, elem_of_union. by right.
Qed.

(** C4, as the code has it.  A scan never returns a port on which a
    listener is detected, and N requests yield N pairwise distinct ports
    provided each port handed out is bound before the next request is
    served: the requests return, with one port per request, each free
    beforehand and no two equal. *)
Theorem allocations_distinct_when_bound (starts : list Z) (w : World) :
  (∃ (fuel : nat) (ps : list jsnum) (w' : World),
      allocate_all true fuel starts w = Some (ps, w')) ∧
  (∀ (fuel : nat) (ps : list jsnum) (w' : World),
      allocate_all true fuel starts w = Some (ps, w') →
      length ps = length starts ∧ NoDup ps ∧
      ∀ p, p ∈ ps → ∃ z, p = JInt z ∧ z ∉ listening w).
Proof.
  split.
  - destruct (allocate_all_total true starts w) as (fuel0 & [ps w'] & Hrun).
    exists fuel0, ps, w'. by apply Hrun.
  - intros fuel ps w' Hrun.
    apply allocate_all_bound_inv in Hrun as (_ & Hlen & Hnd & Hall).
    split; [done|]. split; [done|].
    intros p Hp. apply Hall in Hp as (z & -> & Hz & _). by exists z.
Qed.

(** The claim fails when the ports are not bound in between: three
    requests from 3000 all receive 3000; and one run of
    [setupEnvironment], with the recorded ports 8080 and 8081 both busy,
    assigns 8082 to the API and to the web server alike. *)
Lemma allocations_collide_counterexample :
  allocate_all false 5 [3000; 3000; 3000] (machine ∅ None)
  = Some ([JInt 3000; JInt 3000; JInt 3000],
          log_all [Probe (JInt 3000); Probe (JInt 3000); Probe (JInt 3000)]
                  (machine ∅ None))
  ∧ ∃ w',
      setupEnvironment 5
        (machine {[8080; 8081]}
                 (Some ("API_PORT=8080" +:+ nl +:+ "WEB_PORT=8081" +:+ nl)))
      = Some (Returned (mkPorts (JInt 8082) (JInt 8082)), w').
Proof. split; [|eexists]; vm_compute; reflexivity. Qed.

End Collisions.

Lemma allocations_distinct_when_bound_witness :
  length [JInt 3000; JInt 3002; JInt 3003] = length [3000; 3000; 3001] ∧
  NoDup [JInt 3000; JInt 3002; JInt 3003] ∧
  ∀ p, p ∈ [JInt 3000; JInt 3002; JInt 3003] →
       ∃ z, p = JInt z ∧ z ∉ listening (machine {[3001]} None).
Proof.
  apply (proj2 (allocations_distinct_when_bound [3000; 3000; 3001]
                  (machine {[3001]} None))
               5%nat [JInt 3000; JInt 3002; JInt 3003]
               (listen 3003 (log_all (probes 3001 3)
                  (listen 3002 (log_all (probes 3000 3)
                     (listen 3000 (log_all (probes 3000 1)
                        (machine {[3001]} None)))))))).
  vm_compute. reflexivity.
Defined.

Section Runs.

Lemma findAvailablePort_probes_only (fuel : nat) :
  ∀ port w res w', findAvailablePort fuel port w = Some (res, w') →
    ∃ es, w' = log_all es w ∧ Forall is_probe es.
Proof.
  induction fuel as [|fuel IH]; intros port w res w' Hrun; [done|].
  cbn [findAvailablePort] in Hrun. unfold bind, isPortAvailable in Hrun.
  destruct (port_free w port).
  - injection Hrun as <- <-. exists [Probe port]. split; [done|].
    by repeat constructor.
  - apply IH in Hrun as (es & -> & Hes). exists (Probe port :: es).
    split; [by rewrite log_log_all|]. by constructor.
Qed.

(** A port search probes its starting port first, probes only, and binds
    and writes nothing. *)
Lemma settle_probes_only fuel port w res w' :
  settle fuel port w = Some (res, w') →
  ∃ es, w' = log_all (Probe port :: es) w ∧ Forall is_probe es.
Proof.
  unfold settle, bind, isPortAvailable. intros Hrun.
  destruct (port_free w port).
  - injection Hrun as <- <-. by exists [].
  - apply findAvailablePort_probes_only in Hrun as (es & -> & Hes).
    exists es. split; [by rewrite log_log_all|done].
Qed.

Lemma settle_total (port : jsnum) (w : World) :
  ∃ (fuel0 : nat) (res : jsnum * World),
    ∀ fuel, (fuel0 ≤ fuel)%nat → settle fuel port w = Some res.
Proof.
  unfold settle, bind, isPortAvailable.
  destruct (port_free w port) eqn:Hfree.
  - exists 0%nat. eexists. intros fuel _. reflexivity.
  - destruct port as [|p]; [done|].
    destruct (findAvailablePort_total (log (Probe (JInt p)) w) p)
      as (r & fuel0 & _ & _ & _ & Hrun).
    exists fuel0. eexists. intros fuel Hfuel. by apply Hrun.
Qed.

Lemma settle_keeps fuel port w res w' :
  settle fuel port w = Some (res, w') →
  faults w' = faults w ∧ root_dir w' = root_dir w ∧ env_file w' = env_file w.
Proof.
  intros H. by apply settle_probes_only in H as (es & -> & _).
Qed.

Lemma ensure_data_dir_unfold w :
  ensure_data_dir w
  = if negb (data_dir w) && bool_decide (MkdirData ∈ faults w)
    then Some (Thrown, w)
    else Some (Value tt, after_data_dir w).
Proof.
  unfold ensure_data_dir, after_data_dir, fs_call.
  destruct (data_dir w); [done|]. simpl.
  by destruct (bool_decide (MkdirData ∈ faults w)).
Qed.

Lemma after_data_dir_keeps w :
  faults (after_data_dir w) = faults w ∧
  root_dir (after_data_dir w) = root_dir w ∧
  env_file (after_data_dir w) = env_file w.
Proof. unfold after_data_dir. by destruct (data_dir w). Qed.

Lemma read_env_unfold w :
  read_env w
  = if bool_decide (is_Some (env_file w)) && bool_decide (ReadEnvFile ∈ faults w)
    then Some (Thrown, w)
    else Some (Value (env_file w), w).
Proof.
  unfold read_env. destruct (env_file w) as [c|].
  - rewrite (bool_decide_eq_true_2 (is_Some (Some c))) by eauto. cbn [andb].
    by destruct (bool_decide (ReadEnvFile ∈ faults w)).
  - by rewrite (bool_decide_eq_false_2 (is_Some None)) by (by intros [? ?]).
Qed.

(** A run, step by step: each file-system call that throws ends it with
    exit code 1 in the world reached so far; otherwise the two port
    searches start from the candidates read from [.env], the writes
    follow, and the ports are returned. *)
Lemma setupEnvironment_unfold fuel w :
  setupEnvironment fuel w
  = if negb (data_dir w) && bool_decide (MkdirData ∈ faults w)
    then Some (ProcessExit 1, w)
    else if bool_decide (is_Some (env_file w))
            && bool_decide (ReadEnvFile ∈ faults w)
    then Some (ProcessExit 1, after_data_dir w)
    else
      match settle fuel (apiPort (candidates (env_file w))) (after_data_dir w) with
      | None => None
      | Some (api, w2) =>
          match settle fuel (webPort (candidates (env_file w))) w2 with
          | None => None
          | Some (web, w3) =>
              if env_outdated (env_file w) (mkPorts api web)
                 && bool_decide (WriteEnvFile ∈ faults w)
              then Some (ProcessExit 1, w3)
              else if bool_decide (WriteWebEnvFile ∈ faults w)
              then Some (ProcessExit 1,
                         after_env_write (env_file w) (mkPorts api web) w3)
              else Some (Returned (mkPorts api web),
                         after_writes (env_file w) (mkPorts api web) w3)
          end
      end.
Proof.
  unfold setupEnvironment, try_block.
  unfold tbind at 1. unfold bind at 1. rewrite ensure_data_dir_unfold.
  destruct (negb (data_dir w) && bool_decide (MkdirData ∈ faults w)); [done|].
  destruct (after_data_dir_keeps w) as (Hf1 & Hr1 & He1).
  unfold tbind at 1. unfold bind at 1. rewrite read_env_unfold, He1, Hf1.
  destruct (bool_decide (is_Some (env_file w))
            && bool_decide (ReadEnvFile ∈ faults w)); [done|].
  unfold tbind at 1. unfold bind at 1. unfold lift at 1. unfold bind at 1.
  destruct (settle fuel (apiPort (candidates (env_file w))) (after_data_dir w))
    as [[api w2]|] eqn:Hapi; [|done].
  apply settle_keeps in Hapi as (Hf2 & Hr2 & He2).
  unfold ret at 1.
  unfold tbind at 1. unfold bind at 1. unfold lift at 1. unfold bind at 1.
  destruct (settle fuel (webPort (candidates (env_file w))) w2)
    as [[web w3]|] eqn:Hweb; [|done].
  apply settle_keeps in Hweb as (Hf3 & Hr3 & He3).
  unfold ret at 1.
  set (p := mkPorts api web).
  unfold tbind at 1. unfold bind at 1. unfold lift at 1. unfold bind at 1.
  unfold get_world at 1. unfold ret at 1.
  unfold tbind at 1. unfold bind at 1.
  assert (Hf : faults w3 = faults w) by congruence.
  rewrite <- Hf. clear Hf.
  unfold after_writes, after_env_write.
  destruct (env_outdated (env_file w) p) eqn:Hout; cbn [andb].
  - unfold fs_call at 1.
    destruct (bool_decide (WriteEnvFile ∈ faults w3)); [done|].
    unfold lift at 1. unfold bind at 1. unfold write_env at 1. unfold ret at 1.
    unfold tbind at 1. unfold bind at 1. unfold fs_call at 1.
    cbn [faults log].
    destruct (bool_decide (WriteWebEnvFile ∈ faults w3)); [done|].
    reflexivity.
  - unfold lift at 1. unfold bind at 1. unfold ret at 1 2.
    unfold tbind at 1. unfold bind at 1. unfold fs_call at 1.
    destruct (bool_decide (WriteWebEnvFile ∈ faults w3)); [done|].
    reflexivity.
Qed.

Lemma setupEnvironment_inv fuel w p w' :
  setupEnvironment fuel w = Some (Returned p, w') →
  ∃ w2 w3,
    settle fuel (apiPort (candidates (env_file w))) (after_data_dir w)
    = Some (apiPort p, w2) ∧
    settle fuel (webPort (candidates (env_file w))) w2 = Some (webPort p, w3) ∧
    w' = after_writes (env_file w) p w3.
Proof.
  rewrite setupEnvironment_unfold.
  destruct (negb (data_dir w) && _); [done|].
  destruct (bool_decide (is_Some (env_file w)) && _); [done|].
  destruct (settle fuel (apiPort (candidates (env_file w))) (after_data_dir w))
    as [[api w2]|]; [|done].
  destruct (settle fuel (webPort (candidates (env_file w))) w2)
    as [[web w3]|] eqn:Hweb; [|done].
  destruct (env_outdated (env_file w) _ && _); [done|].
  destruct (bool_decide (WriteWebEnvFile ∈ faults w)); [done|].
  intros [= <- <-]. by exists w2, w3.
Qed.

(** Every run ends: with enough steps it returns or exits. *)
Lemma setupEnvironment_ends (w : World) :
  ∃ (fuel0 : nat) (res : Outcome * World),
    ∀ fuel, (fuel0 ≤ fuel)%nat → setupEnvironment fuel w = Some res.
Proof.
  destruct (settle_total (apiPort (candidates (env_file w))) (after_data_dir w))
    as (f1 & [api w2] & Hapi).
  destruct (settle_total (webPort (candidates (env_file w))) w2)
    as (f2 & [web w3] & Hweb).
  exists (max f1 f2).
  destruct (negb (data_dir w) && bool_decide (MkdirData ∈ faults w)) eqn:H1;
    [eexists; intros fuel _; by rewrite setupEnvironment_unfold, H1|].
  destruct (bool_decide (is_Some (env_file w))
            && bool_decide (ReadEnvFile ∈ faults w)) eqn:H2;
    [eexists; intros fuel _; by rewrite setupEnvironment_unfold, H1, H2|].
  destruct (env_outdated (env_file w) (mkPorts api web)
            && bool_decide (WriteEnvFile ∈ faults w)) eqn:H3;
    [eexists; intros fuel Hfuel;
     by rewrite setupEnvironment_unfold, H1, H2, Hapi, Hweb, H3 by lia|].
  destruct (bool_decide (WriteWebEnvFile ∈ faults w)) eqn:H4;
    eexists; intros fuel Hfuel;
    by rewrite setupEnvironment_unfold, H1, H2, Hapi, Hweb, H3, H4 by lia.
Qed.

(** Where no file-system call throws, every run returns. *)
Lemma setupEnvironment_total (w : World) :
  faults w = [] →
  ∃ (fuel0 : nat) (p : Ports) (w' : World),
    ∀ fuel, (fuel0 ≤ fuel)%nat → setupEnvironment fuel w = Some (Returned p, w').
Proof.
  intros Hok.
  destruct (settle_total (apiPort (candidates (env_file w))) (after_data_dir w))
    as (f1 & [api w2] & Hapi).
  destruct (settle_total (webPort (candidates (env_file w))) w2)
    as (f2 & [web w3] & Hweb).
  exists (max f1 f2), (mkPorts api web),
         (after_writes (env_file w) (mkPorts api web) w3).
  intros fuel Hfuel.
  rewrite setupEnvironment_unfold, Hapi, Hweb by lia. rewrite Hok.
  rewrite !bool_decide_eq_false_2 by (by intros ?%elem_of_nil).
  by rewrite !andb_false_r.
Qed.

End Runs.

Section EnvFile.

Lemma js_set_lookup_ne key value obj k :
  key ≠ k → js_set key value obj !! k = obj !! k.
Proof.
  intros Hne. unfold js_set. destruct (decide (key = "__proto__")); [done|].
  by rewrite lookup_insert_ne.
Qed.

Lemma js_set_lookup_eq key value obj :
  key ≠ "__proto__" → js_set key value obj !! key = Some value.
Proof.
  intros Hne. unfold js_set. destruct (decide (key = "__proto__")); [done|].
  by rewrite lookup_insert_eq.
Qed.

(** Lines that do not assign [k] leave the value recorded for [k] alone. *)
Lemma parse_lines_other (k : string) (lines : list string) :
  ∀ obj, (∀ l v, l ∈ lines → line_entry l ≠ Some (k, v)) →
         fold_left parse_line lines obj !! k = obj !! k.
Proof.
  induction lines as [|l lines IH]; intros obj Hno; [done|]. simpl.
  rewrite IH.
  - unfold parse_line. destruct (line_entry l) as [[key value]|] eqn:Hl; [|done].
    apply js_set_lookup_ne. intros ->. apply (Hno l value); [|done].
    by apply elem_of_cons; left.
  - intros l' v Hin. apply Hno. by apply elem_of_cons; right.
Qed.

(** The last line that assigns [k] decides the value recorded for [k]. *)
Lemma parse_lines_last (k v : string) (before after : list string) (line : string) :
  k ≠ "__proto__" →
  line_entry line = Some (k, v) →
  (∀ l v', l ∈ after → line_entry l ≠ Some (k, v')) →
  ∀ obj, fold_left parse_line (before ++ line :: after) obj !! k = Some v.
Proof.
  intros Hk Hline Hafter obj.
  rewrite fold_left_app. simpl. rewrite parse_lines_other by done.
  unfold parse_line. rewrite Hline. by apply js_set_lookup_eq.
Qed.

(** C9, as the code has it.  Without a [.env] file the candidates are the
    defaults 8080 and 3000.  With one, the last line that assigns
    [API_PORT] (resp. [WEB_PORT]) decides: when its trimmed value is not
    empty the candidate is that value parsed in base 10, and when it is
    empty, or when no line assigns the key, the candidate is the default.
    Every run that returns has started its two port searches from these
    candidates. *)
Theorem candidates_follow_env :
  candidates None = mkPorts DEFAULT_API_PORT DEFAULT_WEB_PORT ∧
  (∀ (envContent : string),
     ((∀ (before : list string) (line : string) (after : list string) (v : string),
         split LF envContent = before ++ line :: after →
         line_entry line = Some ("API_PORT", v) →
         (∀ l v', l ∈ after → line_entry l ≠ Some ("API_PORT", v')) →
         (v ≠ "" → apiPort (candidates (Some envContent)) = parseInt10 v) ∧
         (v = "" → apiPort (candidates (Some envContent)) = DEFAULT_API_PORT)) ∧
      ((∀ l v, l ∈ split LF envContent → line_entry l ≠ Some ("API_PORT", v)) →
       apiPort (candidates (Some envContent)) = DEFAULT_API_PORT)) ∧
     ((∀ (before : list string) (line : string) (after : list string) (v : string),
         split LF envContent = before ++ line :: after →
         line_entry line = Some ("WEB_PORT", v) →
         (∀ l v', l ∈ after → line_entry l ≠ Some ("WEB_PORT", v')) →
         (v ≠ "" → webPort (candidates (Some envContent)) = parseInt10 v) ∧
         (v = "" → webPort (candidates (Some envContent)) = DEFAULT_WEB_PORT)) ∧
      ((∀ l v, l ∈ split LF envContent → line_entry l ≠ Some ("WEB_PORT", v)) →
       webPort (candidates (Some envContent)) = DEFAULT_WEB_PORT))) ∧
  (∀ fuel w p w',
     setupEnvironment fuel w = Some (Returned p, w') →
     ∃ w2 w3,
       settle fuel (apiPort (candidates (env_file w))) (after_data_dir w)
       = Some (apiPort p, w2) ∧
       settle fuel (webPort (candidates (env_file w))) w2
       = Some (webPort p, w3)).
Proof.
  split; [reflexivity|]. split.
  - intros envContent. unfold candidates, existingEnv_of, parse_env. cbn [apiPort webPort].
    split; (split;
      [ intros before line after v Hsplit Hline Hafter; rewrite Hsplit;
        rewrite (parse_lines_last _ v) by done;
        split; [intros Hv; by destruct v | by intros ->]
      | intros Hno; by rewrite parse_lines_other by done ]).
  - intros fuel w p w' Hrun.
    apply setupEnvironment_inv in Hrun as (w2 & w3 & Hapi & Hweb & _).
    by exists w2, w3.
Qed.

Lemma candidates_follow_env_witness :
  apiPort (candidates (Some ("API_PORT=9001" +:+ nl +:+ "WEB_PORT=3005")))
  = parseInt10 "9001".
Proof.
  refine (proj1 (proj1 (proj1 (proj1 (proj2 candidates_follow_env)
            ("API_PORT=9001" +:+ nl +:+ "WEB_PORT=3005")))
            [] "API_PORT=9001" ["WEB_PORT=3005"] "9001" eq_refl eq_refl _) _).
  - intros l v' Hin Heq. apply list_elem_of_singleton in Hin. subst l.
    vm_compute in Heq. discriminate Heq.
  - discriminate.
Defined.

(** The claim fails on entries without a value: a [.env] made of the two
    lines [API_PORT= ] and [WEB_PORT=] contains both entries, the value of
    the first parses to [NaN], and yet the run starts from the defaults
    8080 and 3000. *)
Lemma blank_entry_counterexample :
  split LF ("API_PORT= " +:+ nl +:+ "WEB_PORT=")
  = ["API_PORT= "; "WEB_PORT="]
  ∧ parse_env ("API_PORT= " +:+ nl +:+ "WEB_PORT=") !! "API_PORT" = Some ""
  ∧ parseInt10 " " = JNaN
  ∧ candidates (Some ("API_PORT= " +:+ nl +:+ "WEB_PORT="))
    = mkPorts (JInt 8080) (JInt 3000)
  ∧ ∃ w', setupEnvironment 1
            (machine ∅ (Some ("API_PORT= " +:+ nl +:+ "WEB_PORT=")))
          = Some (Returned (mkPorts (JInt 8080) (JInt 3000)), w')
          ∧ take 2 (effects w') = [Probe (JInt 8080); Probe (JInt 3000)].
Proof.
  repeat split; try (vm_compute; reflexivity).
  eexists. split; vm_compute; reflexivity.
Qed.

End EnvFile.

Section Writes.

Lemma after_data_dir_log w :
  after_data_dir w
  = (if data_dir w then w
     else mkWorldF (root_dir w) (listening w) true (env_file w)
                   (web_env_file w) (effects w ++ [Mkdir]) (faults w)).
Proof. unfold after_data_dir. by destruct (data_dir w). Qed.

Lemma not_probe_not_in (e : Effect) (es : list Effect) :
  ¬ is_probe e → Forall is_probe es → e ∉ es.
Proof.
  intros He Hes Hin. rewrite Forall_forall in Hes. by apply He, Hes.
Qed.

Lemma env_outdated_false env p content a b :
  env = Some content →
  parseInt_opt (parse_env content !! "API_PORT") = JInt a → apiPort p = JInt a →
  parseInt_opt (parse_env content !! "WEB_PORT") = JInt b → webPort p = JInt b →
  env_outdated env p = false.
Proof.
  intros -> Ha Hpa Hb Hpb. unfold env_outdated. cbn [existingEnv_of].
  rewrite Ha, Hpa, Hb, Hpb.
  rewrite bool_decide_eq_true_2 by eauto.
  unfold strict_ne. by rewrite !Z.eqb_refl.
Qed.

(** C10.  Every run ends, and where no file-system call throws it ends
    by returning the ports.  A run that returns has written
    [apps/web/.env.local] as its last effect, with the selected API port,
    whether the ports changed or not.  If [.env] exists and its recorded
    [API_PORT] and [WEB_PORT] parse (as line 121 parses them) to the ports
    selected, the run leaves [.env] as it was: no write to it occurs. *)
Theorem env_kept_web_env_rewritten (w : World) :
  (∃ (fuel : nat) (out : Outcome) (w' : World),
      setupEnvironment fuel w = Some (out, w')) ∧
  (faults w = [] →
   ∃ (fuel : nat) (p : Ports) (w' : World),
      setupEnvironment fuel w = Some (Returned p, w')) ∧
  (∀ (fuel : nat) (p : Ports) (w' : World),
      setupEnvironment fuel w = Some (Returned p, w') →
      ∃ es : list Effect,
        effects w' = (effects w ++ es ++ [WriteWebEnv (web_env_content p)]) ∧
        web_env_file w' = Some (web_env_content p) ∧
        (∀ (content : string) (a b : Z),
            env_file w = Some content →
            parseInt_opt (parse_env content !! "API_PORT") = JInt a →
            apiPort p = JInt a →
            parseInt_opt (parse_env content !! "WEB_PORT") = JInt b →
            webPort p = JInt b →
            env_file w' = Some content ∧ ∀ c, WriteEnv c ∉ es)).
Proof.
  split; [|split].
  - destruct (setupEnvironment_ends w) as (fuel0 & [out w'] & Hrun).
    exists fuel0, out, w'. by apply Hrun.
  - intros Hok.
    destruct (setupEnvironment_total w Hok) as (fuel0 & p & w' & Hrun).
    exists fuel0, p, w'. by apply Hrun.
  - intros fuel p w' Hrun.
    apply setupEnvironment_inv in Hrun as (w2 & w3 & Hapi & Hweb & ->).
    apply settle_probes_only in Hapi as (es2 & -> & Hes2).
    apply settle_probes_only in Hweb as (es3 & -> & Hes3).
    set (start := candidates (env_file w)) in *.
    set (scan := (Probe (apiPort start) :: es2) ++ (Probe (webPort start) :: es3)).
    assert (Hscan : Forall is_probe scan).
    { apply Forall_app. split; by constructor. }
    assert (Hdir : ∃ mk, (mk = [] ∨ mk = [Mkdir]) ∧
              effects (after_data_dir w) = (effects w ++ mk) ∧
              env_file (after_data_dir w) = env_file w ∧
              root_dir (after_data_dir w) = root_dir w).
    { rewrite after_data_dir_log. destruct (data_dir w).
      - exists []. by rewrite app_nil_r; auto.
      - exists [Mkdir]. auto. }
    destruct Hdir as (mk & Hmk & Heff & Henv & Hroot).
    unfold after_writes, after_env_write.
    destruct (env_outdated (env_file w) p) eqn:Hout.
    + exists (mk ++ scan ++ [WriteEnv (env_content (root_dir w) p)]).
      split; [|split; [done|]].
      * simpl. rewrite Heff, Hroot. subst scan.
        repeat (rewrite <- app_assoc; simpl). reflexivity.
      * intros content a b Hc Ha Hpa Hb Hpb. exfalso.
        rewrite (env_outdated_false (env_file w) p content a b) in Hout; done.
    + exists (mk ++ scan). split; [|split; [done|]].
      * simpl. rewrite Heff. subst scan.
        repeat (rewrite <- app_assoc; simpl). reflexivity.
      * intros content a b Hc _ _ _ _. split.
        { simpl. by rewrite Henv. }
        intros c Hin. apply elem_of_app in Hin as [Hin|Hin].
        -- destruct Hmk as [-> | ->].
           ++ by apply elem_of_nil in Hin.
           ++ by apply list_elem_of_singleton in Hin.
        -- revert Hin. apply not_probe_not_in; [simpl; tauto|exact Hscan].
Qed.

Lemma env_kept_web_env_rewritten_witness :
  (∃ (fuel : nat) (p : Ports) (w' : World),
      setupEnvironment fuel
        (machine ∅ (Some ("API_PORT=8080" +:+ nl +:+ "WEB_PORT=3000")))
      = Some (Returned p, w')) ∧
  ∃ es : list Effect,
    effects (log_all [Probe (JInt 8080); Probe (JInt 3000);
                      WriteWebEnv (web_env_content (mkPorts (JInt 8080) (JInt 3000)))]
               (mkWorld "/app" ∅ true
                  (Some ("API_PORT=8080" +:+ nl +:+ "WEB_PORT=3000"))
                  (Some (web_env_content (mkPorts (JInt 8080) (JInt 3000)))) []))
    = (effects (machine ∅ (Some ("API_PORT=8080" +:+ nl +:+ "WEB_PORT=3000")))
       ++ es ++ [WriteWebEnv (web_env_content (mkPorts (JInt 8080) (JInt 3000)))])
    ∧ (∀ c, WriteEnv c ∉ es).
Proof.
  split.
  { apply (proj1 (proj2 (env_kept_web_env_rewritten
             (machine ∅ (Some ("API_PORT=8080" +:+ nl +:+ "WEB_PORT=3000")))))).
    reflexivity. }
  destruct (proj2 (proj2 (env_kept_web_env_rewritten
                     (machine ∅ (Some ("API_PORT=8080" +:+ nl +:+ "WEB_PORT=3000")))))
                  1%nat (mkPorts (JInt 8080) (JInt 3000))
                  (log_all [Probe (JInt 8080); Probe (JInt 3000);
                      WriteWebEnv (web_env_content (mkPorts (JInt 8080) (JInt 3000)))]
                     (mkWorld "/app" ∅ true
                        (Some ("API_PORT=8080" +:+ nl +:+ "WEB_PORT=3000"))
                        (Some (web_env_content (mkPorts (JInt 8080) (JInt 3000)))) [])))
    as (es & Heff & _ & Hkept).
  - vm_compute. reflexivity.
  - exists es. split; [exact Heff|].
    apply (Hkept ("API_PORT=8080" +:+ nl +:+ "WEB_PORT=3000") 8080 3000);
      vm_compute; reflexivity.
Defined.

End Writes.

(** * Properties of [apps/web/scripts/dev.js] *)

Section DevServer.

Import DevScript.





Lemma run_app env evs1 evs2 s :
  run env (evs1 ++ evs2) s = run env evs2 (run env evs1 s).
Proof. unfold run. by rewrite fold_left_app. Qed.




End DevServer.

(** * Properties of the Project State Machine *)

Section ProjectStateMachine.

Import StateMachine.

Lemma consistent_initial : consistent initial.
Proof. split; intros sid sess Hs; simpl in Hs; by rewrite lookup_empty in Hs. Qed.

(** Changing a project that is not [Generating] keeps the state
    consistent: no live session belongs to it. *)
Lemma consistent_set_idle sys pid p p' :
  consistent sys → projects sys !! pid = Some p → status p ≠ Generating →
  consistent (set_project pid p' sys).
Proof.
  intros [Hlt Hlive] Hp Hst. split; [done|].
  intros sid sess Hs Hterm. simpl in *.
  destruct (Hlive sid sess Hs Hterm) as (q & Hq & Hgen & Hact).
  exists q. split; [|done].
  rewrite lookup_insert_ne; [done|]. intros Heq.
      rewrite <- Heq in Hq. congruence.
Qed.

Lemma consistent_create sys pid p' :
  consistent sys → projects sys !! pid = None →
  consistent (set_project pid p' sys).
Proof.
  intros [Hlt Hlive] Hp. split; [done|].
  intros sid sess Hs Hterm. simpl in *.
  destruct (Hlive sid sess Hs Hterm) as (q & Hq & Hgen & Hact).
  exists q. split; [|done].
  rewrite lookup_insert_ne; [done|]. intros Heq.
      rewrite <- Heq in Hq. congruence.
Qed.

Lemma consistent_prompt sys pid p :
  consistent sys → projects sys !! pid = Some p → status p = Active →
  consistent (set_project pid (mkProject Generating (Some (next_session sys)))
                          (spawn_session pid sys)).
Proof.
  intros [Hlt Hlive] Hp Hst. split; simpl.
  - intros sid sess Hs. rewrite lookup_insert in Hs.
    destruct (decide (next_session sys = sid)) as [<-|Hne]; [lia|].
    apply Hlt in Hs. lia.
  - intros sid sess Hs Hterm. rewrite lookup_insert in Hs.
    destruct (decide (next_session sys = sid)) as [<-|Hne].
    + injection Hs as <-. simpl. rewrite lookup_insert_eq. by eexists.
    + destruct (Hlive sid sess Hs Hterm) as (q & Hq & Hgen & Hact).
      exists q. split; [|done].
      rewrite lookup_insert_ne; [done|]. intros Heq.
      rewrite <- Heq in Hq. congruence.
Qed.

Lemma consistent_end sys pid p sid r p' :
  consistent sys → projects sys !! pid = Some p →
  active_session p = Some sid →
  consistent (set_project pid p' (end_session sid r sys)).
Proof.
  intros [Hlt Hlive] Hp Hact. split; simpl.
  - intros sid' sess Hs. rewrite lookup_alter in Hs.
    destruct (decide (sid = sid')) as [<-|Hne].
    + destruct (sessions sys !! sid) as [old|] eqn:Hold; [|done].
      by apply (Hlt sid old).
    + by apply (Hlt sid' sess).
  - intros sid' sess Hs Hterm. rewrite lookup_alter in Hs.
    destruct (decide (sid = sid')) as [<-|Hne].
    + destruct (sessions sys !! sid) as [old|]; [|done].
      injection Hs as <-. done.
    + destruct (Hlive sid' sess Hs Hterm) as (q & Hq & Hgen & Hact').
      exists q. split; [|done].
      rewrite lookup_insert_ne; [done|]. intros Heq.
      rewrite <- Heq, Hp in Hq. injection Hq as <-. congruence.
Qed.

(** Every operation, accepted or rejected, keeps the state consistent. *)
Lemma consistent_step pid c sys :
  consistent sys → consistent (fst (step pid c sys)).
Proof.
  intros Hc. unfold step.
  destruct (projects sys !! pid) as [p|] eqn:Hp.
  - destruct (status p) eqn:Hst, c; simpl; try done.
    + by apply (consistent_set_idle sys pid p); [| |rewrite Hst].
    + by apply (consistent_prompt sys pid p).
    + destruct (active_session p) as [sid|] eqn:Hact; [|done].
      by apply (consistent_end sys pid p).
    + destruct (active_session p) as [sid|] eqn:Hact; [|done].
      by apply (consistent_end sys pid p).
    + by apply (consistent_set_idle sys pid p); [| |rewrite Hst].
    + by apply (consistent_set_idle sys pid p); [| |rewrite Hst].
  - destruct c; simpl; try done.
    by apply consistent_create.
Qed.

Lemma consistent_run cmds : ∀ sys, consistent sys → consistent (run cmds sys).
Proof.
  induction cmds as [|[pid c] cmds IH]; intros sys Hc; [done|].
  simpl. apply IH. by apply consistent_step.
Qed.

Lemma consistent_at_most_one sys pid : consistent sys → at_most_one_live sys pid.
Proof.
  intros [_ Hlive] s1 s2 sess1 sess2 H1 H2 Ho1 Ho2 Ht1 Ht2.
  destruct (Hlive s1 sess1 H1 Ht1) as (p1 & Hp1 & _ & Ha1).
  destruct (Hlive s2 sess2 H2 Ht2) as (p2 & Hp2 & _ & Ha2).
  rewrite Ho1 in Hp1. rewrite Ho2 in Hp2. congruence.
Qed.

(** A prompt to an idle project starts its one live session. *)
Example prompt_starts_session :
  sessions (run [(7%nat, Create); (7%nat, Ready); (7%nat, Prompt)] initial)
  = {[ 0%nat := mkSession 7 None ]}
  ∧ projects (run [(7%nat, Create); (7%nat, Ready); (7%nat, Prompt)] initial)
    = {[ 7%nat := mkProject Generating (Some 0%nat) ]}.
Proof. split; vm_compute; reflexivity. Qed.

(** C6.  In every state the system can reach, every project has at most
    one non-terminal session, and it still has after any further operation
    of the state machine, on this or on another project. *)
Theorem one_live_session_per_project
    (cmds : list (nat * Command)) (pid : nat) :
  at_most_one_live (run cmds initial) pid ∧
  ∀ (target : nat) (c : Command),
    at_most_one_live (fst (step target c (run cmds initial))) pid.
Proof.
  assert (Hc : consistent (run cmds initial))
    by apply consistent_run, consistent_initial.
  split.
  - by apply consistent_at_most_one.
  - intros target c. by apply consistent_at_most_one, consistent_step.
Qed.

(** C8.  An attempt that the current state of the project does not
    accept, such as a prompt while [Generating], is answered with
    [InvalidTransition] and returns the state unchanged: no session is
    spawned, no project is touched.  Conversely, whenever the answer is
    [InvalidTransition] the state is the one given. *)
Theorem invalid_transition_leaves_state (sys : System) (pid : nat) (c : Command) :
  (∀ p, projects sys !! pid = Some p → accepts (status p) c = false →
        step pid c sys = (sys, InvalidTransition)) ∧
  (∀ p, projects sys !! pid = Some p → status p = Generating →
        step pid Prompt sys = (sys, InvalidTransition)) ∧
  (snd (step pid c sys) = InvalidTransition → fst (step pid c sys) = sys).
Proof.
  split; [|split].
  - intros p Hp Hacc. unfold step. rewrite Hp.
    by destruct (status p), c.
  - intros p Hp Hst. unfold step. by rewrite Hp, Hst.
  - unfold step. destruct (projects sys !! pid) as [p|].
    + destruct (status p), c; try done;
        by destruct (active_session p).
    + by destruct c.
Qed.

Lemma invalid_transition_leaves_state_witness :
  step 7%nat Prompt (run [(7%nat, Create); (7%nat, Ready); (7%nat, Prompt)] initial)
  = (run [(7%nat, Create); (7%nat, Ready); (7%nat, Prompt)] initial, InvalidTransition).
Proof.
  apply (proj1 (proj2 (invalid_transition_leaves_state
                         (run [(7%nat, Create); (7%nat, Ready); (7%nat, Prompt)] initial)
                         7%nat Prompt))
               (mkProject Generating (Some 0%nat))).
  - vm_compute. reflexivity.
  - reflexivity.
Defined.

End ProjectStateMachine.

(** * Properties of the Session Relay *)

Section SessionRelay.

Import Relay.

Lemma consecutive_snoc a l ev :
  consecutive_from a l → sequence ev = (a + length l)%nat →
  consecutive_from a (l ++ [ev]).
Proof.
  unfold consecutive_from. intros Hl Hev.
  rewrite fmap_app, length_app, Hl. simpl. rewrite Hev.
  by rewrite Nat.add_1_r, seq_S.
Qed.

Lemma consecutive_drop a l d :
  consecutive_from a l → consecutive_from (a + d) (drop d l).
Proof.
  unfold consecutive_from. intros Hl.
  by rewrite fmap_drop, Hl, skipn_seq, length_drop.
Qed.

(** Filtering a gap-free run of events for those after [k] leaves the
    gap-free run that starts right after [k] (or at [a], if later). *)
Lemma consecutive_filter k l :
  ∀ a, consecutive_from a l →
       consecutive_from (max a (S k)) (filter (λ e, (k < sequence e)%nat) l) ∧
       length (filter (λ e, (k < sequence e)%nat) l)
       = (a + length l - max a (S k))%nat.
Proof.
  induction l as [|e l IH]; intros a Hl.
  - split; [done|simpl; lia].
  - unfold consecutive_from in Hl. simpl in Hl. injection Hl as He Hl.
    destruct (IH (S a) Hl) as [IHc IHlen].
    rewrite filter_cons. destruct (decide (k < sequence e)%nat) as [Hk|Hk].
    + replace (max a (S k)) with a by lia.
      replace (max (S a) (S k)) with (S a) in * by lia.
      split; [|simpl; lia].
      unfold consecutive_from in *. rewrite fmap_cons, IHc, He. reflexivity.
    + replace (max a (S k)) with (max (S a) (S k)) by lia.
      split; [done|simpl; lia].
Qed.

Lemma fresh_ok : channel_ok fresh.
Proof.
  unfold channel_ok, fresh; simpl. repeat split; try done; try lia.
  all: intros cid s Hs; by rewrite lookup_empty in Hs.
Qed.

Lemma channel_lookup_ok r pid : relay_ok r → channel_ok (channel pid r).
Proof.
  intros Hr. unfold channel. destruct (r !! pid) as [ch|] eqn:Hch; simpl.
  - by apply (Hr pid).
  - apply fresh_ok.
Qed.

Lemma relay_ok_insert r pid ch :
  relay_ok r → channel_ok ch → relay_ok (<[pid := ch]> r).
Proof.
  intros Hr Hch pid' ch' Hl. rewrite lookup_insert in Hl.
  destruct (decide (pid = pid')) as [<-|Hne].
  - by injection Hl as <-.
  - by apply (Hr pid').
Qed.

Lemma publish_ok cfg pid data r : relay_ok r → relay_ok (publish cfg pid data r).
Proof.
  intros Hr. apply relay_ok_insert; [done|].
  destruct (channel_lookup_ok r pid Hr) as (Hpub & Hnext & Hring & Hlen & Hsubs).
  set (ch := channel pid r) in *.
  set (ev := mkEvent pid (next_sequence ch) data).
  unfold channel_ok. cbn [published next_sequence ring subscribers].
  split; [|split; [|split; [|split]]].
  - apply consecutive_snoc; [done|]. simpl. lia.
  - rewrite length_app. simpl. lia.
  - unfold keep_last. rewrite length_drop, length_app. simpl.
    assert (Hall : consecutive_from (next_sequence ch - length (ring ch))
                                    (ring ch ++ [ev])).
    { apply consecutive_snoc; [done|]. simpl. lia. }
    apply (consecutive_drop _ _ (length (ring ch) + 1 - retention cfg)) in Hall.
    replace (S (next_sequence ch)
             - (length (ring ch) + 1 - (length (ring ch) + 1 - retention cfg)))%nat
      with (next_sequence ch - length (ring ch)
            + (length (ring ch) + 1 - retention cfg))%nat by lia.
    done.
  - unfold keep_last. rewrite length_drop, length_app. simpl. lia.
  - intros cid s Hs. rewrite lookup_omap in Hs.
    destruct (subscribers ch !! cid) as [old|] eqn:Hold; [|done].
    simpl in Hs. unfold deliver in Hs.
    destruct (pending old <? queue_bound cfg)%nat; [|done].
    injection Hs as <-. simpl.
    destruct (Hsubs cid old Hold) as [Hrec Hup].
    split.
    + apply consecutive_snoc; [done|]. simpl. lia.
    + rewrite length_app. simpl. lia.
Qed.

Lemma subscribe_ok pid cid k r : relay_ok r → relay_ok (fst (subscribe pid cid k r)).
Proof.
  intros Hr. unfold subscribe.
  destruct (replayable (channel pid r) k) eqn:Hrep; [|done].
  simpl. apply relay_ok_insert; [done|].
  destruct (channel_lookup_ok r pid Hr) as (Hpub & Hnext & Hring & Hlen & Hsubs).
  set (ch := channel pid r) in *.
  unfold channel_ok. cbn [published next_sequence ring subscribers].
  repeat (split; [done|]).
  intros cid' s Hs. rewrite lookup_insert in Hs.
  destruct (decide (cid = cid')) as [<-|Hne]; [|by apply (Hsubs cid')].
  injection Hs as <-. simpl.
  unfold replayable in Hrep. apply andb_true_iff in Hrep as [Hlo Hhi].
  apply Nat.leb_le in Hlo, Hhi.
  destruct (consecutive_filter k (ring ch) _ Hring) as [Hc Hl].
  unfold replay.
  replace (max (next_sequence ch - length (ring ch)) (S k)) with (S k) in * by lia.
  split; [done|]. rewrite Hl. lia.
Qed.

Lemma unsubscribe_ok pid cid r : relay_ok r → relay_ok (unsubscribe pid cid r).
Proof.
  intros Hr. apply relay_ok_insert; [done|].
  destruct (channel_lookup_ok r pid Hr) as (Hpub & Hnext & Hring & Hlen & Hsubs).
  unfold channel_ok. cbn [published next_sequence ring subscribers].
  repeat (split; [done|]).
  intros cid' s Hs. rewrite lookup_delete in Hs.
  destruct (decide (cid = cid')); [done|]. by apply (Hsubs cid').
Qed.

Lemma acknowledge_ok pid cid n r : relay_ok r → relay_ok (acknowledge pid cid n r).
Proof.
  intros Hr. apply relay_ok_insert; [done|].
  destruct (channel_lookup_ok r pid Hr) as (Hpub & Hnext & Hring & Hlen & Hsubs).
  unfold channel_ok. cbn [published next_sequence ring subscribers].
  repeat (split; [done|]).
  intros cid' s Hs. rewrite lookup_alter in Hs.
  destruct (decide (cid = cid')) as [<-|Hne]; [|by apply (Hsubs cid')].
  destruct (subscribers (channel pid r) !! cid) as [old|] eqn:Hold; [|done].
  injection Hs as <-. simpl. by apply (Hsubs cid).
Qed.

Lemma apply_ok cfg r op : relay_ok r → relay_ok (apply cfg r op).
Proof.
  destruct op; simpl;
    auto using publish_ok, subscribe_ok, unsubscribe_ok, acknowledge_ok.
Qed.

Lemma run_ok cfg ops : relay_ok (run cfg ops).
Proof.
  unfold run.
  assert (H : ∀ r, relay_ok r → relay_ok (fold_left (apply cfg) ops r)).
  { induction ops as [|op ops IH]; intros r Hr; [done|].
    simpl. by apply IH, apply_ok. }
  apply H. intros pid ch Hl. by rewrite lookup_empty in Hl.
Qed.

Lemma consecutive_lookup a l i e :
  consecutive_from a l → l !! i = Some e → sequence e = (a + i)%nat.
Proof.
  unfold consecutive_from. intros Hl Hi.
  assert (Hs : (sequence <$> l) !! i = Some (sequence e))
    by (by rewrite list_lookup_fmap, Hi).
  rewrite Hl in Hs. by apply lookup_seq in Hs as [-> _].
Qed.

(** C5.  In every state the relay can reach, for every project: the
    events published so far carry the numbers 1, 2, 3, ... in the order of
    their emission, so no number is used twice, and the next emission is
    given the number after the last; and each current subscriber has
    received, in this order, exactly the numbers that follow the sequence it
    subscribed from, one after the other up to the last one published:
    strictly increasing and without a gap. *)
Theorem sequences_gap_free (cfg : Config) (ops : list Op) (pid : nat) (ch : Channel) :
  run cfg ops !! pid = Some ch →
  (∀ i e, published ch !! i = Some e → sequence e = (1 + i)%nat) ∧
  NoDup (sequence <$> published ch) ∧
  (∀ data, published (channel pid (publish cfg pid data (run cfg ops)))
           = published ch ++ [mkEvent pid (S (length (published ch))) data]) ∧
  (∀ cid s, subscribers ch !! cid = Some s →
     (∀ i e, received s !! i = Some e →
             sequence e = (fromSequence s + 1 + i)%nat) ∧
     (fromSequence s + length (received s))%nat = length (published ch)).
Proof.
  intros Hch.
  destruct (run_ok cfg ops pid ch Hch) as (Hpub & Hnext & Hring & Hlen & Hsubs).
  split; [|split; [|split]].
  - intros i e Hi. by apply (consecutive_lookup 1 (published ch)).
  - unfold consecutive_from in Hpub. rewrite Hpub. apply NoDup_seq.
  - intros data. unfold publish, channel.
    rewrite lookup_insert_eq, Hch. simpl. by rewrite Hnext.
  - intros cid s Hs. destruct (Hsubs cid s Hs) as [Hrec Hup]. split.
    + intros i e Hi. rewrite (consecutive_lookup _ _ _ _ Hrec Hi). lia.
    + lia.
Qed.

Lemma sequences_gap_free_witness :
  ∃ ch : Channel,
    run (mkConfig 2 10)
        [Publish 1 10; Subscribe 1 5 0; Publish 1 11; Publish 1 12;
         Subscribe 1 6 1; Publish 1 13] !! 1%nat = Some ch ∧
    ∀ cid s, subscribers ch !! cid = Some s →
      (∀ i e, received s !! i = Some e →
              sequence e = (fromSequence s + 1 + i)%nat) ∧
      (fromSequence s + length (received s))%nat = length (published ch).
Proof.
  assert (H : is_Some (run (mkConfig 2 10)
                [Publish 1 10; Subscribe 1 5 0; Publish 1 11; Publish 1 12;
                 Subscribe 1 6 1; Publish 1 13] !! 1%nat))
    by (vm_compute; eexists; reflexivity).
  destruct H as [ch Hch]. exists ch. split; [exact Hch|].
  apply (sequences_gap_free (mkConfig 2 10) _ 1%nat ch Hch).
Defined.

End SessionRelay.

(** * Further properties of the port scan *)

Section ScanAlgebra.

(** The result of a scan is the least free port at or above its start;
    two such ports for comparable starts and busy sets compare the same
    way. *)
Lemma least_free_monotone (w w2 : World) (p p2 r r2 : Z) :
  p ≤ p2 → listening w ⊆ listening w2 →
  p ≤ r → (∀ k, p ≤ k < r → k ∈ listening w) →
  p2 ≤ r2 → r2 ∉ listening w2 →
  r ≤ r2.
Proof.
  intros Hp Hsub Hpr Hbusy Hp2 Hfree2.
  destruct (decide (r ≤ r2)) as [|Hn]; [done|].
  exfalso. apply Hfree2, Hsub, Hbusy. lia.
Qed.

(** X1.  A scan can be resumed anywhere on its way: if the scan from [p]
    returns [r], the scan from any port between [p] and [r] returns [r]
    as well, and so does the scan from [r] itself, after a single probe. *)
Theorem findAvailablePort_resumes (fuel : nat) (w : World) (p r : Z) (w1 : World) :
  findAvailablePort fuel (JInt p) w = Some (JInt r, w1) →
  ∀ p', p ≤ p' ≤ r →
    findAvailablePort fuel (JInt p') w
    = Some (JInt r, log_all (probes p' (r - p' + 1)) w)
    ∧ findAvailablePort fuel (JInt r) w1
      = Some (JInt r, log_all [Probe (JInt r)] w1).
Proof.
  intros Hrun p' Hp'.
  assert (Hfuel : (Z.to_nat (r - p) < fuel)%nat).
  { clear Hp'. revert p w w1 Hrun.
    induction fuel as [|fuel IH]; intros p w w1 Hrun; [done|].
    cbn [findAvailablePort] in Hrun. unfold bind, isPortAvailable in Hrun.
    destruct (port_free w (JInt p)) eqn:Hp.
    - injection Hrun as <- _. replace (p - p) with 0 by lia. simpl. lia.
    - cbn [incr] in Hrun. pose proof Hrun as Hs.
      apply findAvailablePort_sound in Hs as (r' & [= <-] & Hle & _).
      apply IH in Hrun. lia. }
  apply findAvailablePort_sound in Hrun as (r' & [= <-] & Hle & Hfree & Hbusy & ->).
  split.
  - apply (findAvailablePort_again w w); [done|lia|done| |lia].
    intros k Hk. apply Hbusy. lia.
  - replace [Probe (JInt r)] with (probes r (r - r + 1))
      by (by replace (r - r + 1) with 1 by lia).
    apply (findAvailablePort_again w); [done|lia|done|intros; lia|].
    replace (r - r) with 0 by lia. simpl. lia.
Qed.

Lemma findAvailablePort_resumes_witness :
  findAvailablePort 5 (JInt 3001) (machine {[3000; 3001; 3002]} None)
  = Some (JInt 3003, log_all (probes 3001 (3003 - 3001 + 1))
                             (machine {[3000; 3001; 3002]} None))
  ∧ findAvailablePort 5 (JInt 3003)
      (log_all (probes 3000 4) (machine {[3000; 3001; 3002]} None))
    = Some (JInt 3003,
            log_all [Probe (JInt 3003)]
              (log_all (probes 3000 4) (machine {[3000; 3001; 3002]} None))).
Proof.
  apply (findAvailablePort_resumes 5 (machine {[3000; 3001; 3002]} None) 3000 3003
           (log_all (probes 3000 4) (machine {[3000; 3001; 3002]} None))).
  - vm_compute. reflexivity.
  - lia.
Defined.

(** X2.  More busy ports or a later start never lower the port returned:
    if every port busy in [w] is busy in [w2] and [p ≤ p2], the scan of
    [w2] from [p2] returns a port at or above the one the scan of [w] from
    [p] returns. *)
Theorem findAvailablePort_monotone
    (fuel fuel2 : nat) (w w2 : World) (p p2 r r2 : Z) (w1 w3 : World) :
  p ≤ p2 → listening w ⊆ listening w2 →
  findAvailablePort fuel (JInt p) w = Some (JInt r, w1) →
  findAvailablePort fuel2 (JInt p2) w2 = Some (JInt r2, w3) →
  r ≤ r2.
Proof.
  intros Hp Hsub Hrun Hrun2.
  apply findAvailablePort_sound in Hrun as (r' & [= <-] & Hle & _ & Hbusy & _).
  apply findAvailablePort_sound in Hrun2 as (r2' & [= <-] & Hle2 & Hfree2 & _ & _).
  by apply (least_free_monotone w w2 p p2).
Qed.

Lemma findAvailablePort_monotone_witness : 3001 ≤ 3003.
Proof.
  apply (findAvailablePort_monotone 5 5
           (machine {[3000]} None) (machine {[3000; 3001; 3002]} None)
           3000 3000 3001 3003
           (log_all (probes 3000 2) (machine {[3000]} None))
           (log_all (probes 3000 4) (machine {[3000; 3001; 3002]} None))).
  - lia.
  - simpl. apply (bool_decide_unpack _). vm_compute. exact I.
  - vm_compute. reflexivity.
  - vm_compute. reflexivity.
Defined.

End ScanAlgebra.

(** * Further properties of a run of [setupEnvironment] *)

Section RunOutcome.

Lemma log_all_app_eq es1 es2 w :
  log_all es2 (log_all es1 w) = log_all (es1 ++ es2) w.
Proof. unfold log_all; simpl. by rewrite <- app_assoc. Qed.

Lemma settle_sound fuel port w r w' :
  settle fuel port w = Some (r, w') →
  least_free_from (listening w) port r ∧
  w' = log_all (search_log (listening w) port r) w.
Proof.
  unfold settle, bind, isPortAvailable. intros Hrun.
  destruct (port_free w port) eqn:Hfree.
  - injection Hrun as <- <-. destruct port as [|c]; [done|].
    apply port_free_true in Hfree. split.
    + exists c. split; [done|]. split; [lia|]. split; [done|]. intros; lia.
    + simpl. by rewrite bool_decide_eq_false_2.
  - destruct port as [|c]; [done|]. apply port_free_false in Hfree.
    apply findAvailablePort_sound in Hrun as (a & -> & Hle & Ha & Hbusy & ->).
    split.
    + by exists a.
    + simpl. rewrite bool_decide_eq_true_2 by done. by rewrite log_log_all.
Qed.

Lemma after_data_dir_facts w :
  listening (after_data_dir w) = listening w ∧
  root_dir (after_data_dir w) = root_dir w ∧
  env_file (after_data_dir w) = env_file w ∧
  web_env_file (after_data_dir w) = web_env_file w ∧
  data_dir (after_data_dir w) = true ∧
  effects (after_data_dir w) = effects w ++ (if data_dir w then [] else [Mkdir]).
Proof.
  unfold after_data_dir. destruct (data_dir w) eqn:Hd; simpl; [|done].
  by rewrite app_nil_r.
Qed.

(** A run that returns, taken apart: the selected ports and the world it
    ends in. *)
Lemma setupEnvironment_outcome fuel w p w' :
  setupEnvironment fuel w = Some (Returned p, w') →
  let cand := candidates (env_file w) in
  let scan := search_log (listening w) (apiPort cand) (apiPort p)
              ++ search_log (listening w) (webPort cand) (webPort p) in
  least_free_from (listening w) (apiPort cand) (apiPort p) ∧
  least_free_from (listening w) (webPort cand) (webPort p) ∧
  w' = after_writes (env_file w) p (log_all scan (after_data_dir w)).
Proof.
  intros Hrun cand scan.
  apply setupEnvironment_inv in Hrun as (w2 & w3 & Hapi & Hweb & ->).
  destruct (after_data_dir_facts w) as (Hl & _).
  apply settle_sound in Hapi as [Ha ->]. rewrite Hl in Ha.
  apply settle_sound in Hweb as [Hb ->]. simpl in Hb. rewrite Hl in Hb.
  split; [done|]. split; [done|].
  f_equal. simpl. rewrite log_all_app_eq. by rewrite Hl.
Qed.

Lemma after_writes_facts env0 p w3 :
  listening (after_writes env0 p w3) = listening w3 ∧
  root_dir (after_writes env0 p w3) = root_dir w3 ∧
  data_dir (after_writes env0 p w3) = data_dir w3 ∧
  env_file (after_writes env0 p w3)
  = (if env_outdated env0 p then Some (env_content (root_dir w3) p)
     else env_file w3) ∧
  effects (after_writes env0 p w3)
  = effects w3
    ++ (if env_outdated env0 p then [WriteEnv (env_content (root_dir w3) p)] else [])
    ++ [WriteWebEnv (web_env_content p)].
Proof.
  unfold after_writes, after_env_write.
  destruct (env_outdated env0 p); simpl; [|done].
  by rewrite <- app_assoc.
Qed.

(** X3.  Each port a run selects is the least port at or above its
    candidate on which no listener is found: it is the candidate itself
    when that one is free, every port between the candidate and it is
    busy, and it is [NaN] exactly when the candidate is. *)
Theorem setupEnvironment_selects_least_free fuel w p w' :
  setupEnvironment fuel w = Some (Returned p, w') →
  least_free_from (listening w) (apiPort (candidates (env_file w))) (apiPort p) ∧
  least_free_from (listening w) (webPort (candidates (env_file w))) (webPort p).
Proof.
  intros Hrun. apply setupEnvironment_outcome in Hrun as (Ha & Hb & _). done.
Qed.

Lemma setupEnvironment_selects_least_free_witness :
  ∃ p w',
    setupEnvironment 5
      (machine {[3001; 3002]} (Some ("API_PORT=3001" +:+ nl +:+ "WEB_PORT=3002")))
    = Some (Returned p, w') ∧
    least_free_from {[3001; 3002]}
      (apiPort (candidates (Some ("API_PORT=3001" +:+ nl +:+ "WEB_PORT=3002"))))
      (apiPort p) ∧
    least_free_from {[3001; 3002]}
      (webPort (candidates (Some ("API_PORT=3001" +:+ nl +:+ "WEB_PORT=3002"))))
      (webPort p).
Proof.
  assert (H : ∃ p w', setupEnvironment 5
                (machine {[3001; 3002]}
                   (Some ("API_PORT=3001" +:+ nl +:+ "WEB_PORT=3002")))
              = Some (Returned p, w'))
    by (vm_compute; eexists _, _; reflexivity).
  destruct H as (p & w' & Hrun). exists p, w'. split; [exact Hrun|].
  exact (setupEnvironment_selects_least_free 5 _ p w' Hrun).
Defined.

(** X4.  A run changes nothing but what it is there for: the busy ports
    and the root directory are as before; afterwards the data directory
    exists and [.env] exists, holding the generated text whenever there
    was no [.env] before. *)
Theorem setupEnvironment_frame fuel w p w' :
  setupEnvironment fuel w = Some (Returned p, w') →
  listening w' = listening w ∧
  root_dir w' = root_dir w ∧
  data_dir w' = true ∧
  is_Some (env_file w') ∧
  (env_file w = None → env_file w' = Some (env_content (root_dir w) p)).
Proof.
  intros Hrun. apply setupEnvironment_outcome in Hrun as (_ & _ & ->).
  destruct (after_data_dir_facts w) as (Hl & Hr & He & _ & Hd & _).
  destruct (after_writes_facts (env_file w) p
              (log_all (search_log (listening w)
                          (apiPort (candidates (env_file w))) (apiPort p)
                        ++ search_log (listening w)
                             (webPort (candidates (env_file w))) (webPort p))
                       (after_data_dir w)))
    as (Hl' & Hr' & Hd' & He' & _).
  rewrite Hl', Hr', Hd', He'. simpl. rewrite Hl, Hr, Hd, He.
  split; [done|]. split; [done|]. split; [done|]. split.
  - destruct (env_outdated (env_file w) p) eqn:Hout; [by eexists|].
    unfold env_outdated in Hout.
    destruct (env_file w) as [c|]; [by eexists|done].
  - intros Hnone. unfold env_outdated. by rewrite Hnone.
Qed.

Lemma setupEnvironment_frame_witness :
  ∃ w', setupEnvironment 1 (mkWorld "/srv" {[22]} false None None [])
        = Some (Returned (mkPorts (JInt 8080) (JInt 3000)), w')
        ∧ listening w' = {[22]} ∧ data_dir w' = true
        ∧ env_file w'
          = Some (env_content "/srv" (mkPorts (JInt 8080) (JInt 3000))).
Proof.
  assert (H : ∃ w', setupEnvironment 1 (mkWorld "/srv" {[22]} false None None [])
              = Some (Returned (mkPorts (JInt 8080) (JInt 3000)), w'))
    by (vm_compute; eexists; reflexivity).
  destruct H as [w' Hrun]. exists w'. split; [exact Hrun|].
  destruct (setupEnvironment_frame 1 _ _ _ Hrun) as (Hl & _ & Hd & _ & He).
  split; [exact Hl|]. split; [exact Hd|]. by apply He.
Defined.

(** The effects of a run, in order. *)
Lemma run_effects fuel w p w' :
  setupEnvironment fuel w = Some (Returned p, w') →
  effects w'
  = effects w
    ++ (if data_dir w then [] else [Mkdir])
    ++ search_log (listening w) (apiPort (candidates (env_file w))) (apiPort p)
    ++ search_log (listening w) (webPort (candidates (env_file w))) (webPort p)
    ++ (if env_outdated (env_file w) p
        then [WriteEnv (env_content (root_dir w) p)] else [])
    ++ [WriteWebEnv (web_env_content p)].
Proof.
  intros Hrun. apply setupEnvironment_outcome in Hrun as (_ & _ & ->).
  destruct (after_data_dir_facts w) as (_ & Hr & _ & _ & _ & He).
  match goal with
  | |- effects (after_writes ?e ?q ?w3) = _ =>
      destruct (after_writes_facts e q w3) as (_ & _ & _ & _ & Heff)
  end.
  rewrite Heff. simpl. rewrite He, Hr. by rewrite <- !app_assoc.
Qed.

(** X5.  The complete record of what a run does, in order: the data
    directory is created if it is missing; the API candidate is probed
    and, if busy, scanned from again (so a busy candidate is probed
    twice); the same for the web candidate; [.env] is written if the
    condition of line 120 holds; [.env.local] is written.  Nothing else
    happens. *)
Theorem setupEnvironment_effects fuel w p w' :
  setupEnvironment fuel w = Some (Returned p, w') →
  effects w'
  = effects w
    ++ (if data_dir w then [] else [Mkdir])
    ++ search_log (listening w) (apiPort (candidates (env_file w))) (apiPort p)
    ++ search_log (listening w) (webPort (candidates (env_file w))) (webPort p)
    ++ (if env_outdated (env_file w) p
        then [WriteEnv (env_content (root_dir w) p)] else [])
    ++ [WriteWebEnv (web_env_content p)].
Proof. exact (run_effects fuel w p w'). Qed.

Lemma setupEnvironment_effects_witness :
  ∃ w', setupEnvironment 5 (machine {[8080]} None)
        = Some (Returned (mkPorts (JInt 8081) (JInt 3000)), w')
        ∧ effects w'
          = [Probe (JInt 8080); Probe (JInt 8080); Probe (JInt 8081);
             Probe (JInt 3000);
             WriteEnv (env_content "/app" (mkPorts (JInt 8081) (JInt 3000)));
             WriteWebEnv (web_env_content (mkPorts (JInt 8081) (JInt 3000)))].
Proof.
  assert (H : ∃ w', setupEnvironment 5 (machine {[8080]} None)
              = Some (Returned (mkPorts (JInt 8081) (JInt 3000)), w'))
    by (vm_compute; eexists; reflexivity).
  destruct H as [w' Hrun]. exists w'. split; [exact Hrun|].
  rewrite (setupEnvironment_effects 5 _ _ _ Hrun).
  vm_compute. reflexivity.
Defined.

(** X6.  A recorded port without a leading digit is not repaired: a port
    is selected as [NaN] exactly when its candidate parses to [NaN]; no
    scan replaces it; and a run that selects [NaN] for either port always
    writes [.env], with the text [NaN] in place of the port. *)
Theorem setupEnvironment_nan_port fuel w p w' :
  setupEnvironment fuel w = Some (Returned p, w') →
  (apiPort p = JNaN ↔ apiPort (candidates (env_file w)) = JNaN) ∧
  (webPort p = JNaN ↔ webPort (candidates (env_file w)) = JNaN) ∧
  (apiPort p = JNaN ∨ webPort p = JNaN →
   env_file w' = Some (env_content (root_dir w) p) ∧
   WriteEnv (env_content (root_dir w) p) ∈ effects w').
Proof.
  intros Hrun. pose proof (run_effects _ _ _ _ Hrun) as Heff.
  apply setupEnvironment_outcome in Hrun as (Ha & Hb & ->).
  assert (Hnan : ∀ busy cand sel,
            least_free_from busy cand sel → (sel = JNaN ↔ cand = JNaN)).
  { intros busy [|c] sel H; simpl in H.
    - by subst sel.
    - destruct H as (a & -> & _). split; intros; discriminate. }
  split; [by apply (Hnan (listening w))|].
  split; [by apply (Hnan (listening w))|].
  intros Hp.
  assert (Hout : env_outdated (env_file w) p = true).
  { unfold env_outdated.
    destruct Hp as [-> | ->]; unfold strict_ne;
      repeat match goal with
             | |- context [match ?x with _ => _ end] => destruct x
             end; simpl; try done; by rewrite ?orb_true_r. }
  split.
  - match goal with
    | |- env_file (after_writes ?e ?q ?w3) = _ =>
        destruct (after_writes_facts e q w3) as (_ & _ & _ & He & _)
    end.
    rewrite He, Hout. simpl.
    by destruct (after_data_dir_facts w) as (_ & -> & _).
  - rewrite Heff, Hout. rewrite !elem_of_app. do 4 right. left.
    by apply list_elem_of_singleton.
Qed.

Lemma setupEnvironment_nan_port_witness :
  ∃ w', setupEnvironment 1 (machine ∅ (Some "API_PORT=auto"))
        = Some (Returned (mkPorts JNaN (JInt 3000)), w')
        ∧ env_file w' = Some (env_content "/app" (mkPorts JNaN (JInt 3000))).
Proof.
  assert (H : ∃ w', setupEnvironment 1 (machine ∅ (Some "API_PORT=auto"))
              = Some (Returned (mkPorts JNaN (JInt 3000)), w'))
    by (vm_compute; eexists; reflexivity).
  destruct H as [w' Hrun]. exists w'. split; [exact Hrun|].
  destruct (setupEnvironment_nan_port 1 _ _ _ Hrun) as (_ & _ & Hw).
  apply Hw. by left.
Defined.

End RunOutcome.

(** * Properties of the text functions the scripts rely on *)

Section Strings.

Lemma string_app_cons x (a b : string) : String x a +:+ b = String x (a +:+ b).
Proof. reflexivity. Qed.

Lemma string_app_nil (b : string) : "" +:+ b = b.
Proof. reflexivity. Qed.

Lemma string_app_assoc (a b c : string) : (a +:+ b) +:+ c = a +:+ (b +:+ c).
Proof.
  induction a as [|x a IH]; [done|]. rewrite !string_app_cons. by f_equal.
Qed.

Lemma string_forall_impl (P Q : ascii → bool) s :
  (∀ a, P a = true → Q a = true) →
  string_forall P s = true → string_forall Q s = true.
Proof.
  intros HPQ. induction s as [|a r IH]; simpl; [done|].
  rewrite !andb_true_iff. intros [Ha Hr]. auto.
Qed.

Lemma string_forall_app P a b :
  string_forall P (a +:+ b) = string_forall P a && string_forall P b.
Proof.
  induction a as [|x a IH]; [done|].
  rewrite string_app_cons. simpl. by rewrite IH, andb_assoc.
Qed.

Lemma split_cons sep s : ∃ h t, split sep s = h :: t.
Proof.
  induction s as [|a r (h & t & IH)]; simpl; [by eexists _, _|].
  destruct (Ascii.eqb a sep); [by eexists _, _|].
  rewrite IH. by eexists _, _.
Qed.

(** Splitting at a separator that is there splits the two sides apart. *)
Lemma split_app_sep sep (a b : string) :
  split sep (a +:+ String sep b) = split sep a ++ split sep b.
Proof.
  induction a as [|x a IH].
  - rewrite string_app_nil. simpl. by rewrite Ascii.eqb_refl.
  - rewrite string_app_cons. simpl.
    destruct (Ascii.eqb x sep); [by rewrite IH|].
    rewrite IH. by destruct (split_cons sep a) as (h & t & ->).
Qed.

Lemma split_free sep s : free_of sep s = true → split sep s = [s].
Proof.
  unfold free_of. induction s as [|a r IH]; simpl; [done|].
  rewrite andb_true_iff, negb_true_iff. intros [-> Hr]. by rewrite IH.
Qed.

(** X7.  [split] and [join] are inverse to each other: joining the
    pieces of a string gives the string back, no piece contains the
    separator, and splitting the join of pieces that do not contain the
    separator gives these pieces back. *)
Theorem split_join_inverse (sep : ascii) :
  (∀ s, join sep (split sep s) = s) ∧
  (∀ s piece, piece ∈ split sep s → free_of sep piece = true) ∧
  (∀ piece rest,
     Forall (λ q, free_of sep q = true) (piece :: rest) →
     split sep (join sep (piece :: rest)) = piece :: rest).
Proof.
  split; [|split].
  - induction s as [|a r IH]; simpl; [done|].
    destruct (Ascii.eqb a sep) eqn:Ha.
    + apply Ascii.eqb_eq in Ha as ->.
      destruct (split_cons sep r) as (h & t & Hr). rewrite Hr in *.
      change (join sep ("" :: h :: t))
        with ("" +:+ String sep (join sep (h :: t))).
      by rewrite IH.
    + destruct (split_cons sep r) as (h & t & Hr). rewrite Hr in *.
      destruct t as [|h' t].
      * simpl in *. by rewrite IH.
      * change (join sep (String a h :: h' :: t))
          with (String a (h +:+ String sep (join sep (h' :: t)))).
        change (join sep (h :: h' :: t))
          with (h +:+ String sep (join sep (h' :: t))) in IH.
        by rewrite IH.
  - induction s as [|a r IH]; simpl; intros piece Hin.
    + by apply list_elem_of_singleton in Hin as ->.
    + destruct (Ascii.eqb a sep) eqn:Ha.
      * apply elem_of_cons in Hin as [->|Hin]; [done|by apply IH].
      * destruct (split_cons sep r) as (h & t & Hr). rewrite Hr in *.
        apply elem_of_cons in Hin as [->|Hin].
        -- unfold free_of. simpl. rewrite Ha. simpl.
           apply IH. by apply elem_of_cons; left.
        -- apply IH. by apply elem_of_cons; right.
  - intros piece rest. revert piece.
    induction rest as [|q rest IH]; intros piece Hfree.
    + simpl. apply split_free. by inversion Hfree.
    + inversion Hfree as [|? ? Hp Hrest]; subst.
      change (join sep (piece :: q :: rest))
        with (piece +:+ String sep (join sep (q :: rest))).
      by rewrite split_app_sep, split_free, IH.
Qed.

Lemma split_join_inverse_witness :
  split "=" (join "=" ["API_PORT"; "8080"]) = ["API_PORT"; "8080"].
Proof.
  apply (proj2 (proj2 (split_join_inverse "="))).
  repeat constructor.
Defined.

Lemma trim_start_head s :
  trim_start s = "" ∨ ∃ a r, trim_start s = String a r ∧ is_white a = false.
Proof.
  induction s as [|a r IH]; simpl; [by left|].
  destruct (is_white a) eqn:Ha; [done|]. right. by exists a, r.
Qed.

Lemma trim_start_id a r : is_white a = false → trim_start (String a r) = String a r.
Proof. intros Ha. simpl. by rewrite Ha. Qed.

(** [trim_end] keeps a first character that is not white space. *)
Lemma trim_end_head a r :
  is_white a = false → ∃ r', trim_end (String a r) = String a r'.
Proof.
  intros Ha. simpl. destruct (trim_end r); [|by eexists].
  rewrite Ha. by eexists.
Qed.

Lemma trim_end_idem s : trim_end (trim_end s) = trim_end s.
Proof.
  induction s as [|a r IH]; simpl; [done|].
  destruct (trim_end r) as [|b r'] eqn:Hr.
  - destruct (is_white a) eqn:Ha; simpl; [done|]. by rewrite Ha.
  - change (trim_end (String a (String b r')))
      with (match trim_end (String b r') with
            | EmptyString => if is_white a then EmptyString else String a EmptyString
            | String c x => String a (String c x)
            end).
    by rewrite IH.
Qed.

Lemma trim_idem s : trim (trim s) = trim s.
Proof.
  unfold trim. destruct (trim_start_head s) as [->|(a & r & -> & Ha)]; [done|].
  destruct (trim_end_head a r Ha) as (r' & Hr).
  rewrite Hr, (trim_start_id a r' Ha), <- Hr. apply trim_end_idem.
Qed.

Lemma trim_end_id s :
  string_forall (λ a, negb (is_white a)) s = true → trim_end s = s.
Proof.
  induction s as [|a r IH]; simpl; [done|].
  rewrite andb_true_iff, negb_true_iff. intros [Ha Hr].
  rewrite (IH Hr). destruct r; [by rewrite Ha|done].
Qed.

(** Text without white space is left alone by [trim]. *)
Lemma trim_id s :
  string_forall (λ a, negb (is_white a)) s = true → trim s = s.
Proof.
  intros Hs. unfold trim.
  assert (Hst : trim_start s = s).
  { destruct s as [|a r]; [done|]. simpl in Hs.
    apply andb_true_iff in Hs as [Ha _]. apply negb_true_iff in Ha.
    by apply trim_start_id. }
  rewrite Hst. by apply trim_end_id.
Qed.

End Strings.

(** * Reading back what [setupEnvironment] writes *)

Section ReadBack.

Lemma pretty_N_char_digit d : is_digit (pretty_N_char d) = true.
Proof. unfold pretty_N_char. by repeat case_match. Qed.

Lemma digit_val_pretty d :
  (d < 10)%N → digit_val 10 (pretty_N_char d) = Some (Z.of_N d).
Proof.
  intros Hd.
  assert (d = 0 ∨ d = 1 ∨ d = 2 ∨ d = 3 ∨ d = 4 ∨ d = 5 ∨ d = 6 ∨ d = 7
          ∨ d = 8 ∨ d = 9)%N as Hcases by lia.
  repeat (destruct Hcases as [->|Hcases]; [reflexivity|]). by subst d.
Qed.

Lemma pretty_N_go_forall P x :
  (∀ d, P (pretty_N_char d) = true) →
  ∀ s, string_forall P s = true → string_forall P (pretty_N_go x s) = true.
Proof.
  intros HP. induction (N.lt_wf_0 x) as [x _ IH]; intros s Hs.
  assert (x = 0 ∨ 0 < x)%N as [->|Hx] by lia; [by rewrite pretty_N_go_0|].
  rewrite pretty_N_go_step by done. apply IH; [by apply N.div_lt|].
  simpl. by rewrite HP, Hs.
Qed.

(** The decimal text of a positive number is read back as that number. *)
Lemma digits_from_pretty x :
  (0 < x)%N →
  ∀ s, digits_from 10 None (pretty_N_go x s) = digits_from 10 (Some (Z.of_N x)) s.
Proof.
  induction (N.lt_wf_0 x) as [x _ IH]; intros Hx s.
  rewrite pretty_N_go_step by done.
  assert (Hm : (x `mod` 10 < 10)%N) by (by apply N.mod_lt).
  pose proof (N.div_mod x 10 ltac:(done)) as Hdm.
  assert (x `div` 10 = 0 ∨ 0 < x `div` 10)%N as [Hq|Hq] by lia.
  - rewrite Hq, pretty_N_go_0. cbn [digits_from].
    rewrite digit_val_pretty by done. simpl. f_equal. f_equal. lia.
  - rewrite IH; [|by apply N.div_lt|done]. cbn [digits_from].
    rewrite digit_val_pretty by done. simpl. f_equal. f_equal. lia.
Qed.

Lemma strip_sign_digit t :
  string_forall is_digit t = true → strip_sign t = (1, t).
Proof.
  destruct t as [|c r]; [done|]. simpl. rewrite andb_true_iff. intros [Hc _].
  destruct c as [[] [] [] [] [] [] [] []]; try reflexivity; discriminate Hc.
Qed.

(** On a run of digits [parseInt] without a radix reads in base 10. *)
Lemma parseInt_digits sign t :
  string_forall is_digit t = true →
  match t with
  | String "0" (String "x" r') => of_digits sign 16 r'
  | String "0" (String "X" r') => of_digits sign 16 r'
  | _ => of_digits sign 10 t
  end = of_digits sign 10 t.
Proof.
  intros Ht. destruct t as [|c1 r1]; [reflexivity|].
  destruct c1 as [[] [] [] [] [] [] [] []]; try reflexivity.
  destruct r1 as [|c2 r2]; [reflexivity|].
  simpl in Ht. apply andb_true_iff in Ht as [Hc2 _].
  destruct c2 as [[] [] [] [] [] [] [] []]; try reflexivity; discriminate Hc2.
Qed.

Lemma pretty_pos_digits x : string_forall is_digit (pretty_N_go (Npos x) "") = true.
Proof. apply pretty_N_go_forall; [apply pretty_N_char_digit|done]. Qed.

Lemma of_digits_pretty_pos sign x :
  of_digits sign 10 (pretty_N_go (Npos x) "") = JInt (sign * Zpos x).
Proof.
  unfold of_digits. rewrite digits_from_pretty by done. reflexivity.
Qed.

Lemma pretty_Z_pos x : pretty (Zpos x) = pretty_N_go (Npos x) "".
Proof. reflexivity. Qed.

Lemma pretty_Z_neg x : pretty (Zneg x) = String "-" (pretty_N_go (Npos x) "").
Proof. reflexivity. Qed.

Lemma digit_not_white a : is_digit a = true → is_white a = false.
Proof.
  intros Ha.
  destruct a as [[] [] [] [] [] [] [] []]; try reflexivity; discriminate Ha.
Qed.

Lemma trim_start_digits t :
  string_forall is_digit t = true → trim_start t = t.
Proof.
  destruct t as [|c r]; [done|]. simpl. rewrite andb_true_iff. intros [Hc _].
  by rewrite (digit_not_white c Hc).
Qed.

Lemma number_text_read_back (z : Z) :
  safe_integer z →
  parseInt10 (to_string (JInt z)) = JInt z ∧
  parseInt (to_string (JInt z)) = JInt z.
Proof.
  intros _. destruct z as [|x|x]; [by split| |]; cbn [to_string].
  - rewrite pretty_Z_pos. pose proof (pretty_pos_digits x) as Hd.
    unfold parseInt10, parseInt.
    rewrite trim_start_digits, strip_sign_digit by done.
    rewrite parseInt_digits by done.
    rewrite of_digits_pretty_pos. split; f_equal; lia.
  - rewrite pretty_Z_neg. pose proof (pretty_pos_digits x) as Hd.
    unfold parseInt10, parseInt.
    change (strip_sign (trim_start (String "-" (pretty_N_go (N.pos x) ""))))
      with (-1, pretty_N_go (N.pos x) "").
    cbv iota beta. rewrite parseInt_digits by done.
    rewrite of_digits_pretty_pos. split; f_equal; lia.
Qed.

(** X8.  A port written with a template literal is read back by
    [parseInt], with radix 10 or without a radix, as the same number; this
    holds for every safe integer, negative ones included. *)
Theorem parseInt_to_string (z : Z) :
  safe_integer z →
  parseInt10 (to_string (JInt z)) = JInt z ∧
  parseInt (to_string (JInt z)) = JInt z.
Proof. exact (number_text_read_back z). Qed.

Lemma parseInt_to_string_witness :
  parseInt10 (to_string (JInt 65535)) = JInt 65535 ∧
  parseInt (to_string (JInt 65535)) = JInt 65535.
Proof. apply (parseInt_to_string 65535). unfold safe_integer. lia. Defined.

(** Characters that neither end a line, nor separate key and value, nor
    are trimmed away. *)
Lemma number_char_plain a :
  is_number_char a = true →
  negb (is_white a) && negb (Ascii.eqb a LF) && negb (Ascii.eqb a "=") = true.
Proof.
  intros Ha.
  destruct a as [[] [] [] [] [] [] [] []]; try reflexivity; discriminate Ha.
Qed.

Lemma to_string_number_chars (z : Z) :
  string_forall is_number_char (pretty z) = true.
Proof.
  assert (Hd : ∀ a, is_digit a = true → is_number_char a = true).
  { intros a Ha. unfold is_number_char. by rewrite Ha. }
  destruct z as [|x|x]; [done| |].
  - rewrite pretty_Z_pos. apply (string_forall_impl is_digit); [done|].
    apply pretty_pos_digits.
  - rewrite pretty_Z_neg. simpl.
    apply (string_forall_impl is_digit); [done|]. apply pretty_pos_digits.
Qed.

(** The text of a port, be it a number or [NaN]: one non-empty word that
    [parseInt(.., 10)] reads back. *)
Lemma to_string_plain (n : jsnum) :
  free_of LF (to_string n) = true ∧
  free_of "=" (to_string n) = true ∧
  trim (to_string n) = to_string n ∧
  truthy (to_string n) = true ∧
  (safe_number n → parseInt10 (to_string n) = n).
Proof.
  destruct n as [|z]; [by repeat split|].
  pose proof (to_string_number_chars z) as Hc. cbn [to_string].
  split; [|split; [|split; [|split]]].
  - revert Hc. apply string_forall_impl. intros a Ha.
    apply number_char_plain in Ha. by repeat (apply andb_true_iff in Ha as [Ha ?]).
  - revert Hc. apply string_forall_impl. intros a Ha.
    apply number_char_plain in Ha. by repeat (apply andb_true_iff in Ha as [? Ha]).
  - apply trim_id. revert Hc. apply string_forall_impl. intros a Ha.
    apply number_char_plain in Ha.
    apply andb_true_iff in Ha as [Ha _]. by apply andb_true_iff in Ha as [Ha _].
  - destruct z as [|x|x]; [done| |by rewrite pretty_Z_neg].
    rewrite pretty_Z_pos.
    pose proof (digits_from_pretty (Npos x) ltac:(done) "") as Hx.
    by destruct (pretty_N_go (N.pos x) "").
  - intros Hz. by apply number_text_read_back.
Qed.

Lemma split_line (l rest : string) :
  free_of LF l = true → split LF (l +:+ nl +:+ rest) = l :: split LF rest.
Proof.
  intros Hl. change (nl +:+ rest) with (String LF rest).
  by rewrite split_app_sep, split_free.
Qed.

(** A line [key=value] made of a clean key and any text. *)
Lemma line_entry_key (key rest : string) :
  truthy key = true → starts_with "#" key = false →
  free_of "=" key = true →
  ∀ k v, line_entry (key +:+ String "=" rest) = Some (k, v) → k = trim key.
Proof.
  intros Hk Hc Hf k v. unfold line_entry.
  rewrite split_app_sep, (split_free "=" key) by done.
  destruct (split_cons "=" rest) as (h & t & ->). simpl.
  destruct (_ && _); [|done].
  rewrite Hk. simpl. destruct (truthy h); [|done]. by intros [= <- _].
Qed.

Lemma line_entry_assignment (key value : string) :
  truthy key = true → starts_with "#" key = false →
  free_of "=" key = true → free_of "=" value = true →
  truthy value = true →
  line_entry (key +:+ String "=" value) = Some (trim key, trim value).
Proof.
  intros Hk Hc Hf Hv Ht. unfold line_entry.
  rewrite split_app_sep, (split_free "=" key), (split_free "=" value) by done.
  destruct key as [|a key]; [done|]. rewrite string_app_cons.
  simpl in *. by rewrite Hc, Ht.
Qed.

Lemma ends_with_data_db_path root :
  ∃ tail, data_db_path root = root +:+ tail ∧ free_of LF tail = true.
Proof.
  unfold data_db_path.
  destruct (starts_with "/" root);
    [destruct (ends_with "/" root)|destruct (ends_with "\" root)];
    by eexists.
Qed.

Lemma data_db_path_free root :
  free_of LF root = true → free_of LF (data_db_path root) = true.
Proof.
  intros Hroot. destruct (ends_with_data_db_path root) as (tail & -> & Ht).
  unfold free_of in *. by rewrite string_forall_app, Hroot, Ht.
Qed.

(** The lines of the generated [.env], and the two ports they record. *)
Lemma parse_env_content (root : string) (p : Ports) :
  free_of LF root = true →
  parse_env (env_content root p) !! "API_PORT" = Some (to_string (apiPort p)) ∧
  parse_env (env_content root p) !! "WEB_PORT" = Some (to_string (webPort p)).
Proof.
  intros Hroot. apply data_db_path_free in Hroot.
  destruct (to_string_plain (apiPort p)) as (HaL & HaE & HaT & HaY & _).
  destruct (to_string_plain (webPort p)) as (HbL & HbE & HbT & HbY & _).
  set (A := to_string (apiPort p)) in *. set (B := to_string (webPort p)) in *.
  set (D := data_db_path root) in *.
  set (l4 := "DATABASE_URL=sqlite:///" +:+ D).
  assert (Hlines : split LF (env_content root p)
                   = ["# Auto-generated environment configuration";
                      "API_PORT=" +:+ A; "WEB_PORT=" +:+ B; l4; ""]).
  { unfold env_content. fold A B D.
    rewrite split_line by done.
    rewrite <- (string_app_assoc "API_PORT=" A), split_line
      by (unfold free_of in *; by rewrite string_forall_app, HaL).
    rewrite <- (string_app_assoc "WEB_PORT=" B), split_line
      by (unfold free_of in *; by rewrite string_forall_app, HbL).
    rewrite <- (string_app_assoc "DATABASE_URL=sqlite:///" D).
    fold l4.
    assert (Hl4 : free_of LF l4 = true).
    { unfold l4, free_of in *. by rewrite string_forall_app, Hroot. }
    change (l4 +:+ nl) with (l4 +:+ nl +:+ "").
    by rewrite split_line. }
  assert (Hapi : line_entry ("API_PORT=" +:+ A) = Some ("API_PORT", A)).
  { change ("API_PORT=" +:+ A) with ("API_PORT" +:+ String "=" A).
    rewrite line_entry_assignment by done. by rewrite HaT. }
  assert (Hweb : line_entry ("WEB_PORT=" +:+ B) = Some ("WEB_PORT", B)).
  { change ("WEB_PORT=" +:+ B) with ("WEB_PORT" +:+ String "=" B).
    rewrite line_entry_assignment by done. by rewrite HbT. }
  assert (Hdb : ∀ k v, line_entry l4 = Some (k, v) → k = "DATABASE_URL").
  { intros k v. unfold l4.
    change ("DATABASE_URL=sqlite:///" +:+ D)
      with ("DATABASE_URL" +:+ String "=" ("sqlite:///" +:+ D)).
    intros H. by apply line_entry_key in H. }
  unfold parse_env. rewrite Hlines. split.
  - apply (parse_lines_last "API_PORT" A
             ["# Auto-generated environment configuration"]
             ["WEB_PORT=" +:+ B; l4; ""]); [done|done|].
    intros l v' Hin Hl.
    apply elem_of_cons in Hin as [->|Hin]; [by rewrite Hweb in Hl|].
    apply elem_of_cons in Hin as [->|Hin]; [by apply Hdb in Hl|].
    by apply list_elem_of_singleton in Hin as ->.
  - apply (parse_lines_last "WEB_PORT" B
             ["# Auto-generated environment configuration"; "API_PORT=" +:+ A]
             [l4; ""]); [done|done|].
    intros l v' Hin Hl.
    apply elem_of_cons in Hin as [->|Hin]; [by apply Hdb in Hl|].
    by apply list_elem_of_singleton in Hin as ->.
Qed.

Lemma candidates_env_content (root : string) (p : Ports) :
  free_of LF root = true →
  safe_number (apiPort p) → safe_number (webPort p) →
  candidates (Some (env_content root p)) = p.
Proof.
  intros Hroot Hsa Hsb. destruct (parse_env_content root p Hroot) as [Ha Hb].
  destruct (to_string_plain (apiPort p)) as (_ & _ & _ & HaY & HaP).
  destruct (to_string_plain (webPort p)) as (_ & _ & _ & HbY & HbP).
  unfold candidates, existingEnv_of. rewrite Ha, Hb. unfold existing_or.
  rewrite HaY, HbY, (HaP Hsa), (HbP Hsb). by destruct p.
Qed.

(** X9.  What the script writes it reads back: provided the root
    directory has no line feed in its name and each port is [NaN] or a
    safe integer, the candidates read from a generated [.env] are the very
    ports it was generated for. *)
Theorem env_content_read_back (root : string) (p : Ports) :
  free_of LF root = true →
  safe_number (apiPort p) → safe_number (webPort p) →
  candidates (Some (env_content root p)) = p.
Proof. exact (candidates_env_content root p). Qed.

Lemma env_content_read_back_witness :
  candidates (Some (env_content "/home/dev/app" (mkPorts (JInt 8081) JNaN)))
  = mkPorts (JInt 8081) JNaN.
Proof.
  apply env_content_read_back.
  - reflexivity.
  - simpl. unfold safe_integer. lia.
  - exact I.
Defined.

End ReadBack.

(** * A second run *)

Section SecondRun.

Lemma least_free_unique busy cand s1 s2 :
  least_free_from busy cand s1 → least_free_from busy cand s2 → s1 = s2.
Proof.
  destruct cand as [|c]; simpl; [by intros -> ->|].
  intros (a1 & -> & Hc1 & Hf1 & Hb1) (a2 & -> & Hc2 & Hf2 & Hb2).
  f_equal.
  destruct (decide (a1 < a2)) as [H12|H12]; [exfalso; apply Hf1, Hb2; lia|].
  destruct (decide (a2 < a1)) as [H21|H21]; [exfalso; apply Hf2, Hb1; lia|].
  lia.
Qed.

Lemma least_free_is_free busy cand a :
  least_free_from busy cand (JInt a) → least_free_from busy (JInt a) (JInt a).
Proof.
  destruct cand as [|c]; simpl; [done|].
  intros (a' & [= <-] & _ & Hf & _).
  exists a. split; [done|]. split; [lia|]. split; [done|]. intros; lia.
Qed.

Lemma search_log_probes busy cand sel : Forall is_probe (search_log busy cand sel).
Proof.
  unfold search_log.
  destruct cand as [|c], sel as [|a]; try (by repeat constructor).
  destruct (bool_decide _); [|by repeat constructor].
  constructor; [done|]. unfold probes.
  apply Forall_fmap, Forall_forall. by intros z _.
Qed.

(** X10.  Running the script again changes nothing: after a run that
    selected two safe integers, a second run in the world the first one
    left (the same ports busy, the root directory without a line feed in
    its name) that returns selects the same two ports, leaves [.env] as
    the first run left it, and neither creates a directory nor writes
    [.env]. *)
Theorem setupEnvironment_second_run
    (fuel fuel2 : nat) (w w' w2 : World) (a b : Z) (p2 : Ports) :
  free_of LF (root_dir w) = true →
  safe_integer a → safe_integer b →
  setupEnvironment fuel w = Some (Returned (mkPorts (JInt a) (JInt b)), w') →
  setupEnvironment fuel2 w' = Some (Returned p2, w2) →
  p2 = mkPorts (JInt a) (JInt b) ∧
  env_file w2 = env_file w' ∧
  ∃ es, effects w2 = effects w' ++ es ∧ (Mkdir ∉ es) ∧ ∀ c, WriteEnv c ∉ es.
Proof.
  intros Hroot Hsa Hsb Hrun1 Hrun2.
  set (p := mkPorts (JInt a) (JInt b)) in *.
  pose proof (run_effects _ _ _ _ Hrun2) as Heff.
  apply setupEnvironment_outcome in Hrun1 as (Ha & Hb & Hw').
  apply setupEnvironment_outcome in Hrun2 as (Ha2 & Hb2 & Hw2).
  destruct (after_data_dir_facts w) as (Hl & Hr & He & _ & Hd & _).
  match type of Hw' with
  | _ = after_writes ?e ?q ?w3 =>
      destruct (after_writes_facts e q w3) as (Hl' & Hr' & Hd' & He' & _)
  end.
  rewrite <- Hw' in Hl', Hr', Hd', He'. simpl in Hl', Hr', Hd', He'.
  rewrite Hl in Hl'. rewrite Hr in Hr', He'. rewrite Hd in Hd'. rewrite He in He'.
  rewrite Hl' in Ha2, Hb2.
  assert (Hcand : env_outdated (env_file w') p = false ∧
                  least_free_from (listening w)
                    (apiPort (candidates (env_file w'))) (JInt a) ∧
                  least_free_from (listening w)
                    (webPort (candidates (env_file w'))) (JInt b)).
  { destruct (env_outdated (env_file w) p) eqn:Hout.
    - rewrite He', candidates_env_content by done.
      split; [|split; [by apply (least_free_is_free _ _ _ Ha)
                      |by apply (least_free_is_free _ _ _ Hb)]].
      destruct (parse_env_content (root_dir w) p Hroot) as [Hpa Hpb].
      unfold env_outdated. cbn [existingEnv_of]. rewrite Hpa, Hpb.
      cbn [parseInt_opt apiPort webPort p].
      rewrite (proj2 (number_text_read_back a Hsa)),
              (proj2 (number_text_read_back b Hsb)).
      rewrite bool_decide_eq_true_2 by eauto.
      unfold strict_ne. by rewrite !Z.eqb_refl.
    - rewrite He'. done. }
  destruct Hcand as (Hout2 & Hca & Hcb).
  assert (Hp2 : p2 = p).
  { destruct p2 as [x y]. simpl in Ha2, Hb2.
    rewrite (least_free_unique _ _ _ _ Ha2 Hca),
            (least_free_unique _ _ _ _ Hb2 Hcb). done. }
  subst p2. split; [done|].
  match type of Hw2 with
  | _ = after_writes ?e ?q ?w3 =>
      destruct (after_writes_facts e q w3) as (_ & _ & _ & He2 & _)
  end.
  rewrite <- Hw2 in He2. rewrite Hout2 in He2. simpl in He2.
  destruct (after_data_dir_facts w') as (_ & _ & He3 & _).
  split; [by rewrite He2, He3|].
  rewrite Hd', Hout2 in Heff. simpl in Heff.
  eexists. split; [exact Heff|].
  assert (Hscan : Forall is_probe
            (search_log (listening w') (apiPort (candidates (env_file w'))) (apiPort p)
             ++ search_log (listening w') (webPort (candidates (env_file w'))) (webPort p))).
  { apply Forall_app. split; apply search_log_probes. }
  split.
  - rewrite app_assoc. intros Hin. apply elem_of_app in Hin as [Hin|Hin].
    + revert Hin. apply not_probe_not_in; [simpl; tauto|done].
    + by apply list_elem_of_singleton in Hin.
  - intros c. rewrite app_assoc. intros Hin. apply elem_of_app in Hin as [Hin|Hin].
    + revert Hin. apply not_probe_not_in; [simpl; tauto|done].
    + by apply list_elem_of_singleton in Hin.
Qed.

Lemma setupEnvironment_second_run_witness :
  ∃ w' p2 w2,
    setupEnvironment 5 (machine {[8080]} None)
    = Some (Returned (mkPorts (JInt 8081) (JInt 3000)), w') ∧
    setupEnvironment 5 w' = Some (Returned p2, w2) ∧
    p2 = mkPorts (JInt 8081) (JInt 3000) ∧
    env_file w2 = env_file w'.
Proof.
  assert (H : ∃ w' p2 w2,
             setupEnvironment 5 (machine {[8080]} None)
             = Some (Returned (mkPorts (JInt 8081) (JInt 3000)), w') ∧
             setupEnvironment 5 w' = Some (Returned p2, w2)).
  { eexists _, _, _. split; [vm_compute; reflexivity|vm_compute; reflexivity]. }
  destruct H as (w' & p2 & w2 & Hrun & H). exists w', p2, w2.
  assert (Hs : safe_integer 8081 ∧ safe_integer 3000)
    by (unfold safe_integer; lia).
  destruct (setupEnvironment_second_run 5 5 (machine {[8080]} None) w' w2
              8081 3000 p2 eq_refl (proj1 Hs) (proj2 Hs) Hrun H)
    as (Hp2 & He & _).
  done.
Defined.

End SecondRun.

(** * Further properties of the [.env] reader *)

Section EnvReader.

Lemma line_entry_none l :
  l = "" ∨ starts_with "#" l = true ∨ free_of "=" l = true →
  line_entry l = None.
Proof.
  unfold line_entry. intros [->|[Hc|Hf]]; [done| |].
  - rewrite Hc. simpl. by rewrite andb_false_r.
  - rewrite (split_free "=" l Hf). by destruct (_ && _).
Qed.

(** X11.  Lines that assign nothing do not matter: an empty line, a line
    that starts with [#], or a line without [=] can be put between any two
    lines of [.env] without changing what is read from it. *)
Theorem parse_env_skips_lines (before l after : string) :
  free_of LF l = true →
  l = "" ∨ starts_with "#" l = true ∨ free_of "=" l = true →
  parse_env (before +:+ nl +:+ l +:+ nl +:+ after)
  = parse_env (before +:+ nl +:+ after).
Proof.
  intros Hl Hkind. unfold parse_env.
  change (nl +:+ l +:+ nl +:+ after) with (String LF (l +:+ String LF after)).
  change (nl +:+ after) with (String LF after).
  rewrite !split_app_sep, (split_free LF l Hl), !fold_left_app. simpl.
  unfold parse_line at 2. by rewrite line_entry_none.
Qed.

Lemma parse_env_skips_lines_witness :
  parse_env ("API_PORT=8081" +:+ nl +:+ "# the web port" +:+ nl +:+ "WEB_PORT=3001")
  = parse_env ("API_PORT=8081" +:+ nl +:+ "WEB_PORT=3001").
Proof.
  apply (parse_env_skips_lines "API_PORT=8081" "# the web port" "WEB_PORT=3001").
  - reflexivity.
  - right. left. reflexivity.
Defined.

Lemma line_entry_trimmed l k v :
  line_entry l = Some (k, v) → trim k = k ∧ trim v = v.
Proof.
  unfold line_entry. destruct (_ && _); [|done].
  destruct (split "=" l) as [|key [|value rest]]; [done|done|].
  destruct (_ && _); [|done].
  intros [= <- <-]. by rewrite !trim_idem.
Qed.

Lemma parse_lines_trimmed (lines : list string) :
  ∀ obj : gmap string string,
    (∀ k v, obj !! k = Some v → trim k = k ∧ trim v = v ∧ k ≠ "__proto__") →
    ∀ k v, fold_left parse_line lines obj !! k = Some v →
           trim k = k ∧ trim v = v ∧ k ≠ "__proto__".
Proof.
  induction lines as [|l lines IH]; intros obj Hobj; [done|].
  simpl. apply IH. intros k v. unfold parse_line.
  destruct (line_entry l) as [[key value]|] eqn:Hl; [|by apply Hobj].
  apply line_entry_trimmed in Hl as [Hk Hv].
  unfold js_set. destruct (decide (key = "__proto__")) as [->|Hne]; [by apply Hobj|].
  rewrite lookup_insert. destruct (decide (key = k)) as [<-|Hkk].
  - by intros [= <-].
  - by apply Hobj.
Qed.

(** X12.  Whatever the content of [.env], every key and every value read
    from it is trimmed: neither starts nor ends with white space (so a
    carriage return at the end of a line never reaches a port), and no
    entry is ever stored under the key [__proto__]. *)
Theorem parse_env_trimmed (envContent k v : string) :
  parse_env envContent !! k = Some v →
  trim k = k ∧ trim v = v ∧ k ≠ "__proto__".
Proof.
  unfold parse_env. apply parse_lines_trimmed.
  intros k' v' H. by rewrite lookup_empty in H.
Qed.

Lemma parse_env_trimmed_witness :
  trim "8081" = "8081".
Proof.
  apply (parse_env_trimmed
           (" API_PORT = 8081" +:+ String (ascii_of_nat 13) "") "API_PORT" "8081").
  vm_compute. reflexivity.
Defined.

End EnvReader.

(** * Further properties of [apps/web/scripts/dev.js] *)

Section DevServerMore.

Import DevScript DevNotions.

Lemma script_ok_mono evs e s code :
  status s = Exited code → script_ok evs s → script_ok (evs ++ [e]) s.
Proof.
  unfold script_ok. intros ->.
  destruct (code =? 0); rewrite !elem_of_app; intuition.
Qed.

Lemma loop_end_ok evs s :
  status s = Running → signals s = [] →
  (child_alive s = false →
   ChildExit (Some 0) ∈ evs ∨ ChildExit None ∈ evs) →
  script_ok evs (loop_end s).
Proof.
  intros Hs Hsig Hgone. unfold loop_end.
  destruct (keeps_alive s) eqn:Hk.
  - unfold script_ok. by rewrite Hs.
  - unfold script_ok. simpl. right.
    unfold keeps_alive in Hk. apply orb_false_iff in Hk as [Hc _]. auto.
Qed.

Lemma handle_script_ok env evs s e :
  script_ok evs s → script_ok (evs ++ [e]) (handle env s e).
Proof.
  intros Hok. unfold handle.
  destruct (status s) as [|c0] eqn:Hst; [|by apply (script_ok_mono _ _ _ c0)].
  unfold script_ok in Hok. rewrite Hst in Hok.
  destruct Hok as (Hk & Hsig & Hgone).
  assert (Hgone' : child_alive s = false →
                   ChildExit (Some 0) ∈ evs ++ [e] ∨ ChildExit None ∈ evs ++ [e]).
  { intros H. rewrite !elem_of_app. destruct (Hgone H); auto. }
  assert (Hkeep : script_ok (evs ++ [e]) s).
  { unfold script_ok. by rewrite Hst. }
  destruct e as [[code|]| | | |ok|].
  - destruct (code =? 0) eqn:Hc.
    + apply Z.eqb_eq in Hc as ->. apply loop_end_ok; [done|done|].
      intros _. left. apply elem_of_app. right. by apply list_elem_of_singleton.
    + unfold script_ok. simpl. rewrite Hc. split; [done|].
      left. apply elem_of_app. right. by apply list_elem_of_singleton.
  - apply loop_end_ok; [done|done|].
    intros _. right. apply elem_of_app. right. by apply list_elem_of_singleton.
  - unfold script_ok. simpl. split; [done|].
    right. split; [done|]. apply elem_of_app. right. by apply list_elem_of_singleton.
  - unfold script_ok, kill. simpl.
    destruct (child_alive s) eqn:Hc; simpl.
    + left. rewrite Hsig. split; [done|].
      apply elem_of_app. right. by apply list_elem_of_singleton.
    + right. rewrite Hc. auto.
  - destruct (timer s) eqn:Ht; try done.
    unfold script_ok. simpl. rewrite Hst. split; [|done].
    unfold keeps_alive. simpl. by rewrite orb_true_r.
  - destruct (timer s) eqn:Ht; try done. destruct ok.
    + unfold script_ok. simpl. rewrite Hst. split; [|done].
      unfold keeps_alive. simpl. by rewrite orb_true_r.
    + by apply loop_end_ok.
  - destruct (timer s) eqn:Ht; try done. by apply loop_end_ok.
Qed.

Lemma run_script_ok env evs :
  ∀ pre s, script_ok pre s → script_ok (pre ++ evs) (run env evs s).
Proof.
  induction evs as [|e evs IH]; intros pre s Hs; [by rewrite app_nil_r|].
  change (run env (e :: evs) s) with (run env evs (handle env s e)).
  replace (pre ++ e :: evs) with ((pre ++ [e]) ++ evs)
    by (by rewrite <- app_assoc).
  apply IH. by apply handle_script_ok.
Qed.

Lemma start_script_ok env : script_ok [] (start env).
Proof. unfold script_ok. simpl. done. Qed.

(** X13.  How the script ends.  It runs only while the dev server, the
    timer or the callback of the timer keeps it alive.  It ends with a
    non-zero code only because the dev server has exited with that code
    or has raised ['error'] (code 1), and has then sent no signal.  It
    ends with code 0 only after [SIGINT] or after the dev server has
    exited with code 0 or by a signal.  It sends a signal to the dev
    server only on [SIGINT]: one signal, [SIGINT], after which it has
    ended with code 0. *)
Theorem script_end (env : Env) (evs : list Event) :
  (status (run env evs (start env)) = Running →
   child_alive (run env evs (start env)) = true ∨
   timer (run env evs (start env)) ≠ NoTimer) ∧
  (∀ c, status (run env evs (start env)) = Exited c → c ≠ 0 →
        signals (run env evs (start env)) = [] ∧
        (ChildExit (Some c) ∈ evs ∨ (c = 1 ∧ ChildError ∈ evs))) ∧
  (status (run env evs (start env)) = Exited 0 →
   Sigint ∈ evs ∨ ChildExit (Some 0) ∈ evs ∨ ChildExit None ∈ evs) ∧
  (signals (run env evs (start env)) = [] ∨
   (signals (run env evs (start env)) = ["SIGINT"] ∧
    status (run env evs (start env)) = Exited 0 ∧ Sigint ∈ evs)).
Proof.
  pose proof (run_script_ok env evs [] (start env) (start_script_ok env)) as Hok.
  rewrite app_nil_l in Hok. unfold script_ok in Hok.
  destruct (status (run env evs (start env))) as [|c] eqn:Hst.
  - destruct Hok as (Hk & Hsig & _).
    split; [|split; [done|split; [done|by left]]].
    intros _. unfold keeps_alive in Hk.
    apply orb_true_iff in Hk as [Hk|Hk]; [by left|right].
    intros Ht. by rewrite Ht in Hk.
  - split; [done|]. destruct (c =? 0) eqn:Hc.
    + apply Z.eqb_eq in Hc as ->.
      split; [by intros c' [= <-] Hc'|].
      destruct Hok as [[Hsig Hin]|(Hsig & _ & Hin)].
      * split; [by left|]. by right.
      * split; [by right|]. by left.
    + apply Z.eqb_neq in Hc. destruct Hok as [Hsig Hin].
      split; [by intros c' [= <-] _|].
      split; [by intros [= ->]|]. by left.
Qed.

Lemma script_end_witness :
  Sigint ∈ [ChildExit (Some 0); TimerFired; Imported true; OpenSettled] ∨
  ChildExit (Some 0) ∈ [ChildExit (Some 0); TimerFired; Imported true; OpenSettled] ∨
  ChildExit None ∈ [ChildExit (Some 0); TimerFired; Imported true; OpenSettled].
Proof.
  apply (proj1 (proj2 (proj2 (script_end (mkEnv None None)
                  [ChildExit (Some 0); TimerFired; Imported true; OpenSettled])))).
  reflexivity.
Defined.

Lemma loop_end_browser_ok env s : browser_ok env s → browser_ok env (loop_end s).
Proof.
  unfold loop_end. destruct (keeps_alive s); [done|].
  intros [(Ho & _ & _)|(Ho & _ & Hb)]; [left|right]; simpl; auto.
Qed.

Lemma exit_with_browser_ok env c s : browser_ok env s → browser_ok env (exit_with c s).
Proof.
  intros [(Ho & _ & _)|(Ho & _ & Hb)]; [left|right]; simpl; auto.
Qed.

Lemma handle_browser_ok env s e : browser_ok env s → browser_ok env (handle env s e).
Proof.
  intros Hs. unfold handle.
  destruct (status s); [|done].
  destruct e as [[code|]| | | |ok|].
  - destruct (code =? 0);
      [apply loop_end_browser_ok|apply exit_with_browser_ok]; exact Hs.
  - apply loop_end_browser_ok. exact Hs.
  - by apply exit_with_browser_ok.
  - apply exit_with_browser_ok. unfold kill. by destruct (child_alive s).
  - destruct (timer s) eqn:Ht; try done.
    destruct Hs as [(Ho & _ & Hb)|(Ho & [Hx|Hx] & _)]; [|congruence|congruence].
    left. simpl. split; [done|]. split; [done|]. intros _. apply Hb. by rewrite Ht.
  - destruct (timer s) eqn:Ht; try done.
    destruct Hs as [(Ho & _ & Hb)|(Ho & [Hx|Hx] & _)]; [|congruence|congruence].
    destruct ok.
    + right. simpl. rewrite Ho. split; [done|]. split; [by left|].
      apply Hb. by rewrite Ht.
    + apply loop_end_browser_ok. left. simpl. done.
  - destruct (timer s) eqn:Ht; try done.
    destruct Hs as [(Ho & Hno & _)|(Ho & _ & Hb)]; [done|].
    apply loop_end_browser_ok. right. simpl. auto.
Qed.

Lemma run_browser_ok env evs : ∀ s, browser_ok env s → browser_ok env (run env evs s).
Proof.
  induction evs as [|e evs IH]; intros s Hs; [done|].
  apply IH. by apply handle_browser_ok.
Qed.

(** X14.  The browser is opened at most once, whatever happens and however
    often the timer fires: either no URL has been opened, or exactly one,
    [http://localhost:] followed by the web port; and none is ever opened
    when [BROWSER] is [false] or [none]. *)
Theorem browser_opened_once (env : Env) (evs : list Event) :
  (opened (run env evs (start env)) = [] ∨
   opened (run env evs (start env)) = ["http://localhost:" +:+ webPort env]) ∧
  (shouldOpenBrowser env = false → opened (run env evs (start env)) = []).
Proof.
  assert (Hok : browser_ok env (run env evs (start env))).
  { apply run_browser_ok. left. simpl.
    destruct (shouldOpenBrowser env); done. }
  destruct Hok as [(Ho & _ & _)|(Ho & _ & Hb)]; rewrite Ho.
  - split; [by left|done].
  - split; [by right|]. congruence.
Qed.

Lemma browser_opened_once_witness :
  opened (run (mkEnv (Some "none") None) [TimerFired; TimerFired]
              (start (mkEnv (Some "none") None))) = [].
Proof.
  apply (proj2 (browser_opened_once (mkEnv (Some "none") None)
                  [TimerFired; TimerFired])).
  reflexivity.
Defined.

End DevServerMore.

(** * What [.env] holds *)

Section EnvHolds.

(** X15.  For every key but [__proto__], the value read from [.env] is
    the one of the last line that assigns the key, and the key is absent
    when no line assigns it. *)
Theorem parse_env_last_wins (envContent k : string) :
  k ≠ "__proto__" →
  (∀ (before : list string) (line : string) (after : list string) (v : string),
     split LF envContent = before ++ line :: after →
     line_entry line = Some (k, v) →
     (∀ l v', l ∈ after → line_entry l ≠ Some (k, v')) →
     parse_env envContent !! k = Some v) ∧
  ((∀ l v, l ∈ split LF envContent → line_entry l ≠ Some (k, v)) →
   parse_env envContent !! k = None).
Proof.
  intros Hk. unfold parse_env. split.
  - intros before line after v -> Hline Hafter.
    by apply parse_lines_last.
  - intros Hno. by rewrite parse_lines_other.
Qed.

Lemma parse_env_last_wins_witness :
  parse_env ("DATABASE_URL=a" +:+ nl +:+ "DATABASE_URL=b") !! "DATABASE_URL"
  = Some "b".
Proof.
  refine (proj1 (parse_env_last_wins
                   ("DATABASE_URL=a" +:+ nl +:+ "DATABASE_URL=b") "DATABASE_URL" _)
                ["DATABASE_URL=a"] "DATABASE_URL=b" [] "b" eq_refl eq_refl _).
  - discriminate.
  - intros l v' Hin. by apply elem_of_nil in Hin.
Defined.

Lemma strict_ne_false a b : strict_ne a b = false → ∃ z, a = JInt z ∧ b = JInt z.
Proof.
  destruct a as [|x], b as [|y]; simpl; try done.
  rewrite negb_false_iff, Z.eqb_eq. intros ->. by exists y.
Qed.

(** X16.  After a run that selected two safe integers, [.env] exists and
    agrees with them: read the way line 121 reads it, its [API_PORT] is
    the API port returned and its [WEB_PORT] the web port returned (the
    root directory having no line feed in its name). *)
Theorem setupEnvironment_env_agrees (fuel : nat) (w w' : World) (a b : Z) :
  free_of LF (root_dir w) = true →
  safe_integer a → safe_integer b →
  setupEnvironment fuel w = Some (Returned (mkPorts (JInt a) (JInt b)), w') →
  ∃ content,
    env_file w' = Some content ∧
    parseInt_opt (parse_env content !! "API_PORT") = JInt a ∧
    parseInt_opt (parse_env content !! "WEB_PORT") = JInt b.
Proof.
  intros Hroot Hsa Hsb Hrun.
  set (p := mkPorts (JInt a) (JInt b)) in *.
  apply setupEnvironment_outcome in Hrun as (_ & _ & ->).
  destruct (after_data_dir_facts w) as (_ & Hr & He & _).
  match goal with
  | |- ∃ _, env_file (after_writes ?e ?q ?w3) = _ ∧ _ =>
      destruct (after_writes_facts e q w3) as (_ & _ & _ & He' & _)
  end.
  rewrite He'. simpl. rewrite Hr, He.
  destruct (env_outdated (env_file w) p) eqn:Hout.
  - exists (env_content (root_dir w) p). split; [done|].
    destruct (parse_env_content (root_dir w) p Hroot) as [-> ->].
    cbn [parseInt_opt apiPort webPort p].
    by rewrite (proj2 (number_text_read_back a Hsa)),
               (proj2 (number_text_read_back b Hsb)).
  - unfold env_outdated in Hout.
    apply orb_false_iff in Hout as [Hout Hweb].
    apply orb_false_iff in Hout as [Hex Hapi].
    destruct (env_file w) as [content|]; [|done].
    exists content. split; [done|]. cbn [existingEnv_of] in *.
    apply strict_ne_false in Hapi as (x & Hx & [= <-]).
    apply strict_ne_false in Hweb as (y & Hy & [= <-]).
    done.
Qed.

Lemma setupEnvironment_env_agrees_witness :
  ∃ w' content,
    setupEnvironment 5 (machine {[3000]} (Some "API_PORT=9000"))
    = Some (Returned (mkPorts (JInt 9000) (JInt 3001)), w') ∧
    env_file w' = Some content ∧
    parseInt_opt (parse_env content !! "API_PORT") = JInt 9000 ∧
    parseInt_opt (parse_env content !! "WEB_PORT") = JInt 3001.
Proof.
  assert (H : ∃ w', setupEnvironment 5 (machine {[3000]} (Some "API_PORT=9000"))
                    = Some (Returned (mkPorts (JInt 9000) (JInt 3001)), w'))
    by (vm_compute; eexists; reflexivity).
  destruct H as [w' Hrun].
  assert (Hs : safe_integer 9000 ∧ safe_integer 3001)
    by (unfold safe_integer; lia).
  destruct (setupEnvironment_env_agrees 5
              (machine {[3000]} (Some "API_PORT=9000")) w' 9000 3001
              eq_refl (proj1 Hs) (proj2 Hs) Hrun) as (content & He & Ha & Hb).
  by exists w', content.
Defined.

End EnvHolds.

(** * Runs that do not go well *)

Section Endings.

Import DevScript DevNotions.

(** X17.  A clean exit of the dev server (code 0, or [null] after a
    signal) while the script runs sends no signal and ends the script
    with code 0, unless the timer of [openBrowserOnce] or its callback is
    still pending: then the script runs on without a dev server. *)
Theorem clean_exit_ends_script (env : Env) (pre : list Event) (code : option Z) :
  status (run env pre (start env)) = Running →
  code = None ∨ code = Some 0 →
  signals (run env (pre ++ [ChildExit code]) (start env)) = [] ∧
  child_alive (run env (pre ++ [ChildExit code]) (start env)) = false ∧
  status (run env (pre ++ [ChildExit code]) (start env))
  = match timer (run env pre (start env)) with
    | NoTimer => Exited 0
    | _ => Running
    end.
Proof.
  intros Hst Hcode. rewrite run_app.
  pose proof (run_script_ok env pre [] (start env) (start_script_ok env)) as Hok.
  rewrite app_nil_l in Hok.
  unfold script_ok in Hok. rewrite Hst in Hok. destruct Hok as (_ & Hsig & _).
  set (s := run env pre (start env)) in *.
  change (run env [ChildExit code] s) with (handle env s (ChildExit code)).
  assert (Hh : handle env s (ChildExit code) = loop_end (child_gone s)).
  { unfold handle. rewrite Hst. by destruct Hcode as [-> | ->]. }
  rewrite Hh. unfold loop_end, keeps_alive. simpl.
  destruct (timer s); simpl; done.
Qed.

Lemma clean_exit_ends_script_witness :
  status (run (mkEnv None None)
              ([TimerFired; Imported true; OpenSettled] ++ [ChildExit (Some 0)])
              (start (mkEnv None None)))
  = Exited 0.
Proof.
  apply (clean_exit_ends_script (mkEnv None None)
           [TimerFired; Imported true; OpenSettled] (Some 0)).
  - reflexivity.
  - by right.
Defined.

End Endings.

Section Failures.



End Failures.
